(** * The ELF reader of src/core/loader/elf.cpp

    A shallow embedding of [class ElfReader] and of the properties its
    specification states about it.

    Machine model.  [ElfReader] is handed a bare [void *ptr] and overlays the
    ELF structures on whatever lies behind it; it never learns the length of
    the buffer.  The embedding therefore follows the code on a flat host
    address space:
    - host memory is a total map from addresses to bytes, a pointer is an
      address (a [Z]), [nullptr] is address [0], and pointer arithmetic is
      integer arithmetic on addresses: it does not wrap, as on a host whose
      pointers are wider than the 32 bits of an [int];
    - multi-byte fields are read in the byte order of the host, which is
      little-endian, and the structures have their natural layout without
      padding ([sizeof(Elf32_Ehdr) = 52], [sizeof(Elf32_Shdr) = 40],
      [sizeof(Elf32_Phdr) = 32], [sizeof(Elf32_Sym) = 16]);
    - [u32] arithmetic wraps modulo [2^32]; a conversion from [unsigned int]
      to [int] keeps the 32 bits (two's complement);
    - accesses that leave the buffer, or the 32-entry local array of
      [LoadInto], are still carried out on the flat memory; that they leave
      their object is recorded by separate side conditions ([in_buffer],
      [segment_addr_in_bounds]);
    - the calls into the collaborators ([Symbols::Add], the [memcpy] into
      [Memory::GetPointer]) are recorded as a trace of events, in program
      order.  Logging macros have no effect and are left out. *)

From Stdlib Require Import ZArith Bool Lia.
From Stdlib Require Import Strings.Byte Strings.Ascii Strings.String.
From Stdlib Require Import List.
Import ListNotations.
Local Open Scope Z_scope.

(** ** Integers of the C++ code *)

Definition u32 (z : Z) : Z := z mod 2 ^ 32.

(** [unsigned int] to [int]: the value with the same 32 bits. *)
Definition int_of_u32 (z : Z) : Z := (z + 2 ^ 31) mod 2 ^ 32 - 2 ^ 31.

(** [int] to [unsigned int]. *)
Definition u32_of_int (z : Z) : Z := z mod 2 ^ 32.

(** ** Host memory *)

Definition Memory : Type := Z -> byte.

Definition nullptr : Z := 0.

Definition read8 (m : Memory) (a : Z) : Z := Z.of_N (Byte.to_N (m a)).

Definition read16 (m : Memory) (a : Z) : Z :=
  read8 m a + 256 * read8 m (a + 1).

Definition read32 (m : Memory) (a : Z) : Z :=
  read8 m a + 256 * read8 m (a + 1)
  + 65536 * read8 m (a + 2) + 16777216 * read8 m (a + 3).

(** Two memories with the same contents. *)
Definition mem_eq (m1 m2 : Memory) : Prop := forall a, m1 a = m2 a.

(** The side condition of an access of [n] bytes at [p] into a buffer of
    [size] bytes that starts at [ptr]. *)
Definition in_buffer (ptr size p n : Z) : bool :=
  (ptr <=? p) && (0 <=? n) && (p + n <=? ptr + size).

(** ** ELF constants *)

Definition ET_NONE : Z := 0.
Definition ET_REL  : Z := 1.
Definition ET_EXEC : Z := 2.
Definition ET_DYN  : Z := 3.
Definition ET_CORE : Z := 4.

Definition SHT_NULL     : Z := 0.
Definition SHT_PROGBITS : Z := 1.
Definition SHT_SYMTAB   : Z := 2.
Definition SHT_STRTAB   : Z := 3.
Definition SHT_NOBITS   : Z := 8.

Definition PT_NULL : Z := 0.
Definition PT_LOAD : Z := 1.
Definition PT_NOTE : Z := 4.

(** ** The structures, as views at an address *)

Definition sizeof_Elf32_Ehdr : Z := 52.
Definition sizeof_Elf32_Shdr : Z := 40.
Definition sizeof_Elf32_Phdr : Z := 32.
Definition sizeof_Elf32_Sym  : Z := 16.

Module Ehdr.
Definition e_type     (m : Memory) (h : Z) : Z := read16 m (h + 16).
Definition e_machine  (m : Memory) (h : Z) : Z := read16 m (h + 18).
Definition e_version  (m : Memory) (h : Z) : Z := read32 m (h + 20).
Definition e_entry    (m : Memory) (h : Z) : Z := read32 m (h + 24).
Definition e_phoff    (m : Memory) (h : Z) : Z := read32 m (h + 28).
Definition e_shoff    (m : Memory) (h : Z) : Z := read32 m (h + 32).
Definition e_flags    (m : Memory) (h : Z) : Z := read32 m (h + 36).
Definition e_phnum    (m : Memory) (h : Z) : Z := read16 m (h + 44).
Definition e_shnum    (m : Memory) (h : Z) : Z := read16 m (h + 48).
Definition e_shstrndx (m : Memory) (h : Z) : Z := read16 m (h + 50).
End Ehdr.

Module Shdr.
Definition sh_name   (m : Memory) (s : Z) : Z := read32 m s.
Definition sh_type   (m : Memory) (s : Z) : Z := read32 m (s + 4).
Definition sh_offset (m : Memory) (s : Z) : Z := read32 m (s + 16).
Definition sh_size   (m : Memory) (s : Z) : Z := read32 m (s + 20).
Definition sh_link   (m : Memory) (s : Z) : Z := read32 m (s + 24).
End Shdr.

Module Phdr.
Definition p_type   (m : Memory) (p : Z) : Z := read32 m p.
Definition p_offset (m : Memory) (p : Z) : Z := read32 m (p + 4).
Definition p_vaddr  (m : Memory) (p : Z) : Z := read32 m (p + 8).
Definition p_filesz (m : Memory) (p : Z) : Z := read32 m (p + 16).
Definition p_memsz  (m : Memory) (p : Z) : Z := read32 m (p + 20).
End Phdr.

Module Sym.
Definition st_name  (m : Memory) (s : Z) : Z := read32 m s.
Definition st_value (m : Memory) (s : Z) : Z := read32 m (s + 4).
Definition st_size  (m : Memory) (s : Z) : Z := read32 m (s + 8).
Definition st_info  (m : Memory) (s : Z) : Z := read8 m (s + 12).
End Sym.

(** ** Calls into the collaborators *)

(** Modelled from the spec: the parameter types of [Symbols::Add]
    (common/symbols.h is not part of the sources): the address and the size
    are [u32], the name is passed as the [const char*] the reader computed. *)
Inductive event : Type :=
| Symbols_Add (address name size type : Z)
    (* Symbols::Add(address, name, size, type) *)
| segment_addr_set (index value : Z)
    (* segment_addr[index] = value, on the local array of LoadInto *)
| memcpy_to_Memory (dest src n : Z).
    (* memcpy(Memory::GetPointer(dest), src, n) *)

Definition is_Symbols_Add (e : event) : bool :=
  match e with Symbols_Add _ _ _ _ => true | _ => false end.

Definition is_memcpy (e : event) : bool :=
  match e with memcpy_to_Memory _ _ _ => true | _ => false end.

Definition is_segment_addr_set (e : event) : bool :=
  match e with segment_addr_set _ _ => true | _ => false end.

(** ** class ElfReader *)

Record ElfReader : Type := mkElfReader {
  mem        : Memory;       (* the host memory the pointers below point into *)
  base       : Z;            (* char *base *)
  header     : Z;            (* Elf32_Ehdr *header *)
  segments   : Z;            (* Elf32_Phdr *segments *)
  sections   : Z;            (* Elf32_Shdr *sections *)
  relocate   : option bool;  (* bool relocate; None until LoadInto assigns it *)
  entryPoint : Z             (* u32 entryPoint *)
}.

Section Accessors.
Variable r : ElfReader.

Definition e_type     : Z := Ehdr.e_type (mem r) (header r).
Definition e_entry    : Z := Ehdr.e_entry (mem r) (header r).
Definition e_phnum    : Z := Ehdr.e_phnum (mem r) (header r).
Definition e_shnum    : Z := Ehdr.e_shnum (mem r) (header r).
Definition e_shstrndx : Z := Ehdr.e_shstrndx (mem r) (header r).

(** [sections + i] and [segments + i]. *)
Definition section_at (i : Z) : Z := sections r + sizeof_Elf32_Shdr * i.
Definition segment_at (i : Z) : Z := segments r + sizeof_Elf32_Phdr * i.

Definition GetType : Z := e_type.
Definition GetEntryPoint : Z := entryPoint r.
Definition GetNumSegments : Z := e_phnum.
Definition GetNumSections : Z := e_shnum.
Definition DidRelocate : option bool := relocate r.

(** [const u8 *GetPtr(int offset)]: [offset] is the argument after its
    conversion to [int]. *)
Definition GetPtr (offset : Z) : Z := base r + offset.

Definition GetSectionDataPtr (section : Z) : Z :=
  if (section <? 0) || (section >=? e_shnum) then nullptr
  else if negb (Shdr.sh_type (mem r) (section_at section) =? SHT_NOBITS)
       then GetPtr (int_of_u32 (Shdr.sh_offset (mem r) (section_at section)))
       else nullptr.

Definition IsCodeSection (section : Z) : bool :=
  Shdr.sh_type (mem r) (section_at section) =? SHT_PROGBITS.

Definition GetSegmentPtr (segment : Z) : Z :=
  GetPtr (int_of_u32 (Phdr.p_offset (mem r) (segment_at segment))).

Definition GetSectionSize (section : Z) : Z :=
  int_of_u32 (Shdr.sh_size (mem r) (section_at section)).

Definition GetSectionName (section : Z) : Z :=
  if Shdr.sh_type (mem r) (section_at section) =? SHT_NULL then nullptr
  else
    let name_offset := int_of_u32 (Shdr.sh_name (mem r) (section_at section)) in
    let ptr := GetSectionDataPtr e_shstrndx in
    if negb (ptr =? nullptr) then ptr + name_offset else nullptr.
End Accessors.

(** ** C strings *)

Definition char_code (c : ascii) : Z := Z.of_N (N_of_ascii c).

(** [strcmp(s, p) == 0], where the first argument is the C string whose
    characters are those of [s] (followed by the terminator) and the second
    one lies in memory at [p].  [strcmp] walks both strings until they
    differ or the terminator is reached. *)
Fixpoint strcmp_eq (m : Memory) (s : string) (p : Z) : bool :=
  match s with
  | EmptyString => read8 m p =? 0
  | String c s' =>
      if char_code c =? 0 then read8 m p =? 0
      else (read8 m p =? char_code c) && strcmp_eq m s' (p + 1)
  end.

(** The characters of the C string that [s] denotes: those before the first
    terminator. *)
Fixpoint c_str (s : string) : list Z :=
  match s with
  | EmptyString => []
  | String c s' => if char_code c =? 0 then [] else char_code c :: c_str s'
  end.

(** Memory holds the terminated string [l] at [p]. *)
Fixpoint cstring_at (m : Memory) (p : Z) (l : list Z) : Prop :=
  match l with
  | [] => read8 m p = 0
  | c :: l' => c <> 0 /\ read8 m p = c /\ cstring_at m (p + 1) l'
  end.

(** ** Section lookup *)

(** The test of the loop body of [GetSectionByName]:
    [secname != nullptr && strcmp(name, secname) == 0]. *)
Definition section_matches (r : ElfReader) (name : string) (i : Z) : bool :=
  let secname := GetSectionName r i in
  negb (secname =? nullptr) && strcmp_eq (mem r) name secname.

(** [for (int i = firstSection; i < header->e_shnum; i++)]: [fuel] counts the
    iterations that are left, [e_shnum - i]. *)
Fixpoint GetSectionByName_loop (r : ElfReader) (name : string)
    (fuel : nat) (i : Z) : Z :=
  match fuel with
  | O => -1
  | S fuel' =>
      if section_matches r name i then i
      else GetSectionByName_loop r name fuel' (i + 1)
  end.

Definition GetSectionByName (r : ElfReader) (name : string)
    (firstSection : Z) : Z :=
  GetSectionByName_loop r name (Z.to_nat (e_shnum r - firstSection)) firstSection.

(** ** Symbol extraction *)

(** The body of the loop of [LoadSymbols] for the entry at index [sym]. *)
Definition symbol_event (r : ElfReader) (symtab stringBase sym : Z) : event :=
  let s := symtab + sizeof_Elf32_Sym * sym in
  let size := int_of_u32 (Sym.st_size (mem r) s) in
  let type := Z.land (Sym.st_info (mem r) s) 15 in
  let name := stringBase + Sym.st_name (mem r) s in
  Symbols_Add (Sym.st_value (mem r) s) name (u32_of_int size) type.

(** [for (int sym = 0; sym < numSymbols; sym++)]: [fuel] is
    [numSymbols - sym]; the result is [hasSymbols] and the calls made. *)
Fixpoint LoadSymbols_loop (r : ElfReader) (symtab stringBase : Z)
    (fuel : nat) (sym : Z) (hasSymbols : bool) : bool * list event :=
  match fuel with
  | O => (hasSymbols, [])
  | S fuel' =>
      let size :=
        int_of_u32 (Sym.st_size (mem r) (symtab + sizeof_Elf32_Sym * sym)) in
      if size =? 0 then
        LoadSymbols_loop r symtab stringBase fuel' (sym + 1) hasSymbols
      else
        let '(h, evs) :=
          LoadSymbols_loop r symtab stringBase fuel' (sym + 1) true in
        (h, symbol_event r symtab stringBase sym :: evs)
  end.

Definition LoadSymbols (r : ElfReader) : bool * list event :=
  let sec := GetSectionByName r ".symtab" 0 in
  if negb (sec =? -1) then
    let stringSection := int_of_u32 (Shdr.sh_link (mem r) (section_at r sec)) in
    let stringBase := GetSectionDataPtr r stringSection in
    let symtab := GetSectionDataPtr r sec in
    let numSymbols :=
      int_of_u32 (Shdr.sh_size (mem r) (section_at r sec) / sizeof_Elf32_Sym) in
    LoadSymbols_loop r symtab stringBase (Z.to_nat numSymbols) 0 false
  else (false, []).

(** ** Construction *)

(** [ElfReader::ElfReader(void *ptr)], on the host memory [m]: the reader and
    the calls made while it is built. *)
Definition ElfReader_ctor (m : Memory) (ptr : Z) : ElfReader * list event :=
  let r := {| mem := m;
              base := ptr;
              header := ptr;
              segments := ptr + Ehdr.e_phoff m ptr;
              sections := ptr + Ehdr.e_shoff m ptr;
              relocate := None;
              entryPoint := Ehdr.e_entry m ptr |} in
  (r, snd (LoadSymbols r)).

(** ** Segment loading *)

(** The local array [u32 segment_addr[32]], on the flat stack: a store at any
    index is read back at that index. *)
Definition array_set (a : Z -> Z) (i v : Z) : Z -> Z :=
  fun j => if j =? i then v else a j.

(** The side condition of [segment_addr[index]]. *)
Definition segment_addr_in_bounds (index : Z) : bool :=
  (0 <=? index) && (index <? 32).

(** [for (int i = 0; i < header->e_phnum; i++)]: [fuel] is [e_phnum - i]. *)
Fixpoint LoadInto_loop (r : ElfReader) (base_addr : Z) (fuel : nat) (i : Z)
    (segment_addr : Z -> Z) : list event :=
  match fuel with
  | O => []
  | S fuel' =>
      let p := segment_at r i in
      if Phdr.p_type (mem r) p =? PT_LOAD then
        let segment_addr' :=
          array_set segment_addr i (u32 (base_addr + Phdr.p_vaddr (mem r) p)) in
        segment_addr_set i (u32 (base_addr + Phdr.p_vaddr (mem r) p))
        :: memcpy_to_Memory (segment_addr' i) (GetSegmentPtr r i)
             (Phdr.p_filesz (mem r) p)
        :: LoadInto_loop r base_addr fuel' (i + 1) segment_addr'
      else LoadInto_loop r base_addr fuel' (i + 1) segment_addr
  end.

(** [bool ElfReader::LoadInto(u32 vaddr)]: the value returned, the reader
    after the call and the calls made.  The local array starts with
    indeterminate contents, here [segment_addr0]. *)
Definition LoadInto_from (segment_addr0 : Z -> Z) (r : ElfReader) (vaddr : Z)
    : bool * ElfReader * list event :=
  let relocate' := negb (e_type r =? ET_EXEC) in
  let entryPoint' :=
    if relocate' then u32 (entryPoint r + vaddr) else entryPoint r in
  let r' := {| mem := mem r;
               base := base r;
               header := header r;
               segments := segments r;
               sections := sections r;
               relocate := Some relocate';
               entryPoint := entryPoint' |} in
  let base_addr := if relocate' then vaddr else 0 in
  (true, r',
   LoadInto_loop r' base_addr (Z.to_nat (e_phnum r')) 0 segment_addr0).

Definition LoadInto : ElfReader -> Z -> bool * ElfReader * list event :=
  LoadInto_from (fun _ => 0).

Definition LoadInto_result (r : ElfReader) (vaddr : Z) : bool :=
  fst (fst (LoadInto r vaddr)).
Definition LoadInto_reader (r : ElfReader) (vaddr : Z) : ElfReader :=
  snd (fst (LoadInto r vaddr)).
Definition LoadInto_trace (r : ElfReader) (vaddr : Z) : list event :=
  snd (LoadInto r vaddr).

(** [n] calls of [LoadInto] with the same base address. *)
Fixpoint LoadInto_times (n : nat) (r : ElfReader) (vaddr : Z) : ElfReader :=
  match n with
  | O => r
  | S n' => LoadInto_reader (LoadInto_times n' r vaddr) vaddr
  end.

(** ** Target memory *)

(** Modelled from the spec: the target memory writer [write(address, bytes)]
    that [memcpy(Memory::GetPointer(dest), src, n)] stands for (core/mem_map
    is not part of the sources): the emulated memory is a map from addresses
    to bytes, apart from the host memory that holds the file, and byte [k] of
    the source lands at address [dest + k]. *)
Definition Memory_write (host : Memory) (target : Memory) (e : event) : Memory :=
  match e with
  | memcpy_to_Memory dest src n =>
      fun a => if (dest <=? a) && (a <? dest + n) then host (src + (a - dest))
               else target a
  | _ => target
  end.

Definition Memory_apply (host : Memory) (trace : list event) (target : Memory)
    : Memory :=
  fold_left (Memory_write host) trace target.

(** ** Specification-side notions *)

(** The indices [i, i+1, ..., i+n-1] a counting loop visits. *)
Fixpoint Zseq (i : Z) (n : nat) : list Z :=
  match n with
  | O => []
  | S n' => i :: Zseq (i + 1) n'
  end.

(** The reader a constructor call leaves behind. *)
Definition constructed (m : Memory) (ptr : Z) : ElfReader :=
  fst (ElfReader_ctor m ptr).

(** Program header [i] is of type LOAD. *)
Definition is_load (r : ElfReader) (i : Z) : bool :=
  Phdr.p_type (mem r) (segment_at r i) =? PT_LOAD.

(** The indices of the LOAD entries among the [e_phnum] program headers, in
    the order of the array. *)
Definition load_indices (r : ElfReader) : list Z :=
  filter (is_load r) (Zseq 0 (Z.to_nat (e_phnum r))).

(** [relocate ? vaddr : 0], with [relocate = (e_type != ET_EXEC)]. *)
Definition base_addr_of (r : ElfReader) (vaddr : Z) : Z :=
  if e_type r =? ET_EXEC then 0 else vaddr.

Definition target_addr (r : ElfReader) (vaddr i : Z) : Z :=
  u32 (base_addr_of r vaddr + Phdr.p_vaddr (mem r) (segment_at r i)).

(** The write for LOAD entry [i] with its source at file offset [offset]. *)
Definition segment_copy_from (r : ElfReader) (vaddr offset i : Z) : event :=
  memcpy_to_Memory (target_addr r vaddr i) (base r + offset)
    (Phdr.p_filesz (mem r) (segment_at r i)).

(** The source taken at [p_offset] itself. *)
Definition segment_copy_at_p_offset (r : ElfReader) (vaddr i : Z) : event :=
  segment_copy_from r vaddr (Phdr.p_offset (mem r) (segment_at r i)) i.

(** The source taken at [p_offset] as [GetPtr] receives it, as an [int]. *)
Definition segment_copy (r : ElfReader) (vaddr i : Z) : event :=
  segment_copy_from r vaddr
    (int_of_u32 (Phdr.p_offset (mem r) (segment_at r i))) i.

Definition segment_store (r : ElfReader) (vaddr i : Z) : event :=
  segment_addr_set i (target_addr r vaddr i).

(** What [LoadInto] does for LOAD entry [i]: the store to the local array
    and the copy. *)
Definition segment_events (r : ElfReader) (vaddr i : Z) : list event :=
  [segment_store r vaddr i; segment_copy r vaddr i].

(** [e] is the write for LOAD entry [i]: [p_filesz] bytes to the target
    address of the entry, taken from file offset [p_offset] when that offset
    is below [2^31]. *)
Definition write_of_entry (r : ElfReader) (vaddr i : Z) (e : event) : Prop :=
  exists src,
    e = memcpy_to_Memory (target_addr r vaddr i) src
          (Phdr.p_filesz (mem r) (segment_at r i))
    /\ (Phdr.p_offset (mem r) (segment_at r i) < 2 ^ 31 ->
        src = base r + Phdr.p_offset (mem r) (segment_at r i)).

(** A store to [segment_addr] stays inside the array; other events make no
    such store. *)
Definition store_in_bounds (e : event) : bool :=
  match e with
  | segment_addr_set index _ => segment_addr_in_bounds index
  | _ => true
  end.

(** Entry [k] of the table at [symtab] has a nonzero size. *)
Definition has_size (r : ElfReader) (symtab k : Z) : bool :=
  negb (Sym.st_size (mem r) (symtab + sizeof_Elf32_Sym * k) =? 0).

(** The report for entry [k] of the symbol table in section [sec]: its value
    as the address, the name at [st_name] in the data of the section that
    [sh_link] names, its size, and the low four bits of [st_info]. *)
Definition reported_symbol (r : ElfReader) (sec k : Z) : event :=
  let entry := GetSectionDataPtr r sec + sizeof_Elf32_Sym * k in
  let stringBase :=
    GetSectionDataPtr r (Shdr.sh_link (mem r) (section_at r sec)) in
  Symbols_Add (Sym.st_value (mem r) entry)
    (stringBase + Sym.st_name (mem r) entry)
    (Sym.st_size (mem r) entry)
    (Z.land (Sym.st_info (mem r) entry) 15).

(** The entries of the symbol table in section [sec], by index. *)
Definition symtab_entries (r : ElfReader) (sec : Z) : list Z :=
  Zseq 0 (Z.to_nat (Shdr.sh_size (mem r) (section_at r sec) / sizeof_Elf32_Sym)).

(** The reports for the entries of nonzero size, in table order. *)
Definition symtab_symbols (r : ElfReader) (sec : Z) : list event :=
  map (reported_symbol r sec)
    (filter (has_size r (GetSectionDataPtr r sec)) (symtab_entries r sec)).

(** The reports for the first section named [.symtab], none without one. *)
Definition expected_symbols (r : ElfReader) : list event :=
  let sec := GetSectionByName r ".symtab" 0 in
  if sec =? -1 then [] else symtab_symbols r sec.

Definition nonempty {A : Type} (l : list A) : bool :=
  match l with [] => false | _ :: _ => true end.

(** The calls of a construction followed by a call of [LoadInto], as
    [AppLoader_ELF::Load] makes them. *)
Definition load_sequence (m : Memory) (ptr vaddr : Z) : list event :=
  snd (ElfReader_ctor m ptr) ++ LoadInto_trace (constructed m ptr) vaddr.

(** Two readers over memories with the same contents, with the same
    pointers. *)
Definition same_view (r1 r2 : ElfReader) : Prop :=
  mem_eq (mem r1) (mem r2)
  /\ base r1 = base r2 /\ header r1 = header r2
  /\ segments r1 = segments r2 /\ sections r1 = sections r2.

(** ** Sample images *)

Module Sample.

Definition byte_of_Z (z : Z) : byte :=
  match Byte.of_N (Z.to_N (z mod 256)) with Some b => b | None => x00 end.

Definition le16 (z : Z) : list Z := [z mod 256; z / 256 mod 256].

Definition le32 (z : Z) : list Z :=
  [z mod 256; z / 256 mod 256; z / 65536 mod 256; z / 16777216 mod 256].

Definition str_bytes (s : string) : list Z :=
  map (fun b => Z.of_N (Byte.to_N b)) (list_byte_of_string s) ++ [0].

(** The memory that holds [bytes] from address [ptr] on and zeros elsewhere. *)
Definition memory_of (ptr : Z) (bytes : list Z) : Memory :=
  fun a => if (ptr <=? a) && (a <? ptr + Z.of_nat (length bytes))
           then byte_of_Z (nth (Z.to_nat (a - ptr)) bytes 0)
           else x00.

Definition ehdr_bytes (type entry phoff shoff phnum shnum shstrndx : Z) : list Z :=
  [127; 69; 76; 70; 1; 1; 1; 0; 0; 0; 0; 0; 0; 0; 0; 0]
  ++ le16 type ++ le16 40 ++ le32 1 ++ le32 entry ++ le32 phoff ++ le32 shoff
  ++ le32 0 ++ le16 52 ++ le16 32 ++ le16 phnum ++ le16 40 ++ le16 shnum
  ++ le16 shstrndx.

(** A program header: type, file offset, virtual address, file size. *)
Definition phdr_bytes (ph : Z * Z * Z * Z) : list Z :=
  let '(type, offset, vaddr, filesz) := ph in
  le32 type ++ le32 offset ++ le32 vaddr ++ le32 vaddr ++ le32 filesz
  ++ le32 (filesz + 4) ++ le32 5 ++ le32 4.

Definition shdr_bytes (name type offset size link : Z) : list Z :=
  le32 name ++ le32 type ++ le32 0 ++ le32 0 ++ le32 offset ++ le32 size
  ++ le32 link ++ le32 0 ++ le32 1 ++ le32 0.

Definition sym_bytes (name value size info : Z) : list Z :=
  le32 name ++ le32 value ++ le32 size ++ [info; 0] ++ le16 1.

Definition shstrtab : list Z :=
  [0] ++ str_bytes ".text" ++ str_bytes ".shstrtab" ++ str_bytes ".symtab"
  ++ str_bytes ".strtab" ++ str_bytes ".bss".

Definition strtab : list Z := [0] ++ str_bytes "main" ++ str_bytes "data".

Definition symtab : list Z :=
  sym_bytes 0 0 0 0 ++ sym_bytes 1 4096 4 18 ++ sym_bytes 6 8192 0 17
  ++ sym_bytes 6 8192 8 17.

(** An image with the program headers [phdrs], four bytes of segment data
    and six sections: the null section, [.text] (with the given type and file
    offset), [.shstrtab], [.symtab] (named by the offset [symtab_name] into
    [.shstrtab]), [.strtab] and [.bss]. *)
Definition image (type entry : Z) (phdrs : list (Z * Z * Z * Z))
    (text_type text_offset symtab_name : Z) : list Z :=
  let phoff := 52 in
  let data := phoff + 32 * Z.of_nat (length phdrs) in
  let shstr := data + 4 in
  let str := shstr + Z.of_nat (length shstrtab) in
  let sym := str + Z.of_nat (length strtab) in
  let shoff := sym + Z.of_nat (length symtab) in
  ehdr_bytes type entry phoff shoff (Z.of_nat (length phdrs)) 6 2
  ++ flat_map phdr_bytes phdrs
  ++ [222; 173; 190; 239]
  ++ shstrtab ++ strtab ++ symtab
  ++ shdr_bytes 0 SHT_NULL 0 0 0
  ++ shdr_bytes 1 text_type text_offset 4 0
  ++ shdr_bytes 7 SHT_STRTAB shstr (Z.of_nat (length shstrtab)) 0
  ++ shdr_bytes symtab_name SHT_SYMTAB sym (Z.of_nat (length symtab)) 4
  ++ shdr_bytes 25 SHT_STRTAB str (Z.of_nat (length strtab)) 0
  ++ shdr_bytes 33 SHT_NOBITS 3000000000 64 0.

(** The address the sample buffers are placed at. *)
Definition buffer : Z := 1048576.

Definition reader_of_image (bytes : list Z) : ElfReader :=
  fst (ElfReader_ctor (memory_of buffer bytes) buffer).

(** A relocatable module with a loadable segment, a note and a loadable
    segment without file data. *)
Definition dyn_image : list Z := Eval vm_compute in
  image ET_DYN 32768 [(PT_LOAD, 148, 4096, 4); (PT_NOTE, 0, 0, 0);
                      (PT_LOAD, 148, 12288, 0)]
    SHT_PROGBITS 148 17.

(** A pre-linked executable with one loadable segment. *)
Definition exec_image : list Z := Eval vm_compute in
  image ET_EXEC 32768 [(PT_LOAD, 84, 4096, 4)] SHT_PROGBITS 84 17.

(** The same executable without a section named [.symtab]. *)
Definition stripped_image : list Z := Eval vm_compute in
  image ET_EXEC 32768 [(PT_LOAD, 84, 4096, 4)] SHT_PROGBITS 84 25.

(** An image whose segment and [.text] section claim the file offset
    [2^31]. *)
Definition far_image : list Z := Eval vm_compute in
  image ET_EXEC 32768 [(PT_LOAD, 2147483648, 4096, 4)]
    SHT_PROGBITS 2147483648 17.

(** An image with 33 program headers, the last one loadable. *)
Definition wide_image : list Z := Eval vm_compute in
  image ET_EXEC 32768 (repeat (PT_NOTE, 0, 0, 0) 32 ++ [(PT_LOAD, 0, 4096, 4)])
    SHT_PROGBITS 0 17.

(** [far_image] as the head of a buffer of [2^31 + 4] bytes whose last four
    bytes, at file offset [2^31], are the segment data. *)
Definition far_size : Z := 2 ^ 31 + 4.

Definition far_memory : Memory :=
  fun a => if (buffer + 2 ^ 31 <=? a) && (a <? buffer + far_size)
           then byte_of_Z (nth (Z.to_nat (a - (buffer + 2 ^ 31)))
                             [222; 173; 190; 239] 0)
           else memory_of buffer far_image a.

Definition dyn_reader : ElfReader := reader_of_image dyn_image.
Definition exec_reader : ElfReader := reader_of_image exec_image.
Definition stripped_reader : ElfReader := reader_of_image stripped_image.
Definition far_reader : ElfReader := fst (ElfReader_ctor far_memory buffer).
Definition wide_reader : ElfReader := reader_of_image wide_image.

End Sample.

From Stdlib Require Import Sorting.Permutation.

(** ** Further members of [ElfReader] *)

(** [u32 Read32(int off) const { return base32[off >> 2]; }].  [base32] is
    the constructor's [ptr] as a [u32*], the address [base] holds; the shift
    of a negative [int] is arithmetic. *)
Definition Read32 (r : ElfReader) (off : Z) : Z :=
  read32 (mem r) (base r + 4 * Z.shiftr off 2).

Definition GetMachine (r : ElfReader) : Z := Ehdr.e_machine (mem r) (header r).

Definition GetFlags (r : ElfReader) : Z := Ehdr.e_flags (mem r) (header r).

(** Calls of [LoadInto] with the base addresses [vaddrs], one after the
    other. *)
Fixpoint LoadInto_each (vaddrs : list Z) (r : ElfReader) : ElfReader :=
  match vaddrs with
  | [] => r
  | vaddr :: rest => LoadInto_each rest (LoadInto_reader r vaddr)
  end.

(** The emulated addresses the copy for LOAD entry [i] writes. *)
Definition in_segment_range (r : ElfReader) (vaddr i a : Z) : bool :=
  (target_addr r vaddr i <=? a)
  && (a <? target_addr r vaddr i + Phdr.p_filesz (mem r) (segment_at r i)).

(** [e] with its emulated address moved up by [vaddr], in [u32]
    arithmetic. *)
Definition shift_event (vaddr : Z) (e : event) : event :=
  match e with
  | segment_addr_set index value => segment_addr_set index (u32 (value + vaddr))
  | memcpy_to_Memory dest src n => memcpy_to_Memory (u32 (dest + vaddr)) src n
  | Symbols_Add _ _ _ _ => e
  end.

(** A report with a [u32] address, a nonzero [u32] size and a type below
    16. *)
Definition report_in_range (e : event) : Prop :=
  match e with
  | Symbols_Add address _ size type =>
      0 <= address < 2 ^ 32 /\ 0 < size < 2 ^ 32 /\ 0 <= type < 16
  | _ => False
  end.

(** A store at the index of a program header, or a copy of a [u32] count of
    bytes to a [u32] address from within [2^31] bytes of [base]. *)
Definition load_event_in_range (r : ElfReader) (e : event) : Prop :=
  match e with
  | segment_addr_set index value =>
      0 <= index < e_phnum r /\ 0 <= value < 2 ^ 32
  | memcpy_to_Memory dest src n =>
      0 <= dest < 2 ^ 32 /\ base r - 2 ^ 31 <= src < base r + 2 ^ 31
      /\ 0 <= n < 2 ^ 32
  | Symbols_Add _ _ _ _ => False
  end.

(** ** The loader *)

(** The values of [ResultStatus] that [AppLoader_ELF::Load] returns. *)
Inductive ResultStatus : Type :=
| Success
| Error
| ErrorAlreadyLoaded.

Record AppLoader_ELF : Type := mkAppLoader_ELF {
  filename  : string;
  is_loaded : bool
}.

(** [AppLoader_ELF::AppLoader_ELF(const std::string& filename)]. *)
Definition AppLoader_ELF_ctor (name : string) : AppLoader_ELF :=
  {| filename := name; is_loaded := false |}.

(** What [Load] calls: the calls of the reader, then
    [Kernel::LoadExec(entry_point)]. *)
Inductive Load_event : Type :=
| Reader_call (e : event)
| Kernel_LoadExec (entry_point : Z).

(** Host memory once [file.ReadBytes(&buffer[0], size)] has filled the [size]
    bytes that [new u8[size]] gave at [buffer]. *)
Definition ReadBytes (heap : Memory) (buffer : Z) (data : list byte) (size : Z)
    : Memory :=
  fun a => if (buffer <=? a) && (a <? buffer + size)
           then nth (Z.to_nat (a - buffer)) data x00
           else heap a.

(** The base address [Load] passes to [LoadInto]. *)
Definition load_base : Z := 1048576.

(** [ResultStatus AppLoader_ELF::Load()].  The file system is [files] (the
    contents of a file that [File::IOFile] can open), [heap] is the host
    memory before the call and [buffer] the address [new u8[size]] returns.
    The result is the status, the loader after the call and the calls
    made. *)
Definition AppLoader_ELF_Load (files : string -> option (list byte))
    (heap : Memory) (buffer : Z) (l : AppLoader_ELF)
    : ResultStatus * AppLoader_ELF * list Load_event :=
  if is_loaded l then (ErrorAlreadyLoaded, l, [])
  else
    match files (filename l) with
    | Some data =>
        let size := u32 (Z.of_nat (length data)) in
        let m := ReadBytes heap buffer data size in
        let '(elf_reader, symbols) := ElfReader_ctor m buffer in
        let '(_, elf_reader', copies) := LoadInto elf_reader load_base in
        (Success, l,
         map Reader_call (symbols ++ copies)
         ++ [Kernel_LoadExec (GetEntryPoint elf_reader')])
    | None => (Error, l, [])
    end.

Definition Load_status (files : string -> option (list byte)) (heap : Memory)
    (buffer : Z) (l : AppLoader_ELF) : ResultStatus :=
  fst (fst (AppLoader_ELF_Load files heap buffer l)).
Definition Load_loader (files : string -> option (list byte)) (heap : Memory)
    (buffer : Z) (l : AppLoader_ELF) : AppLoader_ELF :=
  snd (fst (AppLoader_ELF_Load files heap buffer l)).
Definition Load_calls (files : string -> option (list byte)) (heap : Memory)
    (buffer : Z) (l : AppLoader_ELF) : list Load_event :=
  snd (AppLoader_ELF_Load files heap buffer l).

(** ** More sample images *)

Module Patched.

(** [m] with the bytes [bytes] stored from address [a] on. *)
Definition poke (m : Memory) (a : Z) (bytes : list Z) : Memory :=
  fun x => if (a <=? x) && (x <? a + Z.of_nat (length bytes))
           then Sample.byte_of_Z (nth (Z.to_nat (x - a)) bytes 0)
           else m x.

(** The relocatable sample with [e_shstrndx = 9], past its six sections. *)
Definition no_strtab_reader : ElfReader :=
  constructed
    (poke (Sample.memory_of Sample.buffer Sample.dyn_image)
       (Sample.buffer + 50) [9; 0])
    Sample.buffer.

(** The relocatable sample with the size of its [.text] section set to
    [0x90000000]. *)
Definition big_section_reader : ElfReader :=
  constructed
    (poke (Sample.memory_of Sample.buffer Sample.dyn_image)
       (section_at Sample.dyn_reader 1 + 20) [0; 0; 0; 144])
    Sample.buffer.

(** A file system with the samples. *)
Definition files (name : string) : option (list byte) :=
  if String.eqb name "dyn.elf" then Some (map Sample.byte_of_Z Sample.dyn_image)
  else if String.eqb name "exec.elf"
       then Some (map Sample.byte_of_Z Sample.exec_image)
  else if String.eqb name "empty.elf" then Some []
  else None.

Definition zero_heap : Memory := fun _ => x00.



End Patched.

(** ** Accesses inside their objects *)

(** What a call comes to once an access outside its object counts: it
    returns, or its behaviour is undefined from some access on, after the
    calls made until then. *)
Inductive outcome : Type :=
| Returned (result : bool) (r : ElfReader) (trace : list event)
| Undefined (trace : list event).

Section Checked.

(** The buffer behind [base] has [size] bytes. *)
Variable size : Z.

(** [mapped dest n]: [Memory::GetPointer(dest)] points at [n] bytes of
    emulated memory. *)
Variable mapped : Z -> Z -> bool.

(** The loop of [LoadInto], access by access: the program header is read in
    the buffer, the store goes to one of the 32 entries of [segment_addr],
    the copy reads [p_filesz] bytes of the buffer and writes as many bytes
    of emulated memory.  The result is the calls made and whether the loop
    ran to its end. *)
Fixpoint LoadInto_loop_checked (r : ElfReader) (base_addr : Z) (fuel : nat)
    (i : Z) (segment_addr : Z -> Z) : list event * bool :=
  match fuel with
  | O => ([], true)
  | S fuel' =>
      let p := segment_at r i in
      if negb (in_buffer (base r) size p sizeof_Elf32_Phdr) then ([], false)
      else if Phdr.p_type (mem r) p =? PT_LOAD then
        if negb (segment_addr_in_bounds i) then ([], false)
        else
          let value := u32 (base_addr + Phdr.p_vaddr (mem r) p) in
          let segment_addr' := array_set segment_addr i value in
          if negb (in_buffer (base r) size (GetSegmentPtr r i)
                     (Phdr.p_filesz (mem r) p)
                   && mapped (segment_addr' i) (Phdr.p_filesz (mem r) p))
          then ([segment_addr_set i value], false)
          else
            let '(trace, finished) :=
              LoadInto_loop_checked r base_addr fuel' (i + 1) segment_addr' in
            (segment_addr_set i value
             :: memcpy_to_Memory (segment_addr' i) (GetSegmentPtr r i)
                  (Phdr.p_filesz (mem r) p)
             :: trace, finished)
      else LoadInto_loop_checked r base_addr fuel' (i + 1) segment_addr
  end.

(** [LoadInto], access by access; the header is read in the buffer first. *)
Definition LoadInto_checked (r : ElfReader) (vaddr : Z) : outcome :=
  if negb (in_buffer (base r) size (header r) sizeof_Elf32_Ehdr)
  then Undefined []
  else
    let relocate' := negb (e_type r =? ET_EXEC) in
    let entryPoint' :=
      if relocate' then u32 (entryPoint r + vaddr) else entryPoint r in
    let r' := {| mem := mem r;
                 base := base r;
                 header := header r;
                 segments := segments r;
                 sections := sections r;
                 relocate := Some relocate';
                 entryPoint := entryPoint' |} in
    let base_addr := if relocate' then vaddr else 0 in
    let '(trace, finished) :=
      LoadInto_loop_checked r' base_addr (Z.to_nat (e_phnum r')) 0 (fun _ => 0)
    in
    if finished then Returned true r' trace else Undefined trace.

(** The accesses of one turn of the loop, for program header [i] and the
    base [base_addr], stay inside their objects. *)
Definition segment_accesses_ok_from (r : ElfReader) (base_addr i : Z) : bool :=
  in_buffer (base r) size (segment_at r i) sizeof_Elf32_Phdr
  && (negb (is_load r i)
      || (segment_addr_in_bounds i
          && in_buffer (base r) size (GetSegmentPtr r i)
               (Phdr.p_filesz (mem r) (segment_at r i))
          && mapped (u32 (base_addr + Phdr.p_vaddr (mem r) (segment_at r i)))
               (Phdr.p_filesz (mem r) (segment_at r i)))).

(** The accesses [LoadInto] makes for program header [i] stay inside their
    objects. *)
Definition segment_accesses_ok (r : ElfReader) (vaddr i : Z) : bool :=
  in_buffer (base r) size (segment_at r i) sizeof_Elf32_Phdr
  && (negb (is_load r i)
      || (segment_addr_in_bounds i
          && in_buffer (base r) size (GetSegmentPtr r i)
               (Phdr.p_filesz (mem r) (segment_at r i))
          && mapped (target_addr r vaddr i)
               (Phdr.p_filesz (mem r) (segment_at r i)))).

(** Every access of a call stays inside its object. *)
Definition LoadInto_accesses_ok (r : ElfReader) (vaddr : Z) : bool :=
  in_buffer (base r) size (header r) sizeof_Elf32_Ehdr
  && forallb (segment_accesses_ok r vaddr) (Zseq 0 (Z.to_nat (e_phnum r))).

End Checked.

(** ** What an image holds *)

(** The section table, the names and the symbol table of the image at [ptr]
    in [m], read off the layout of the file: these do not go through the
    reader. *)
Module Image.

Definition shnum (m : Memory) (ptr : Z) : Z := read16 m (ptr + 48).

Definition shstrndx (m : Memory) (ptr : Z) : Z := read16 m (ptr + 50).

(** Section header [i]: 40 bytes at file offset [e_shoff + 40 * i]. *)
Definition shdr (m : Memory) (ptr i : Z) : Z :=
  ptr + read32 m (ptr + 32) + 40 * i.

(** The file data of section [i]; none ([nullptr]) outside the table and for
    a section of type NOBITS. *)
Definition section_data (m : Memory) (ptr i : Z) : Z :=
  if (0 <=? i) && (i <? shnum m ptr)
     && negb (read32 m (shdr m ptr i + 4) =? SHT_NOBITS)
  then ptr + int_of_u32 (read32 m (shdr m ptr i + 16))
  else nullptr.

(** Where the name of section [i] lies: at [sh_name] in the data of the
    section with index [e_shstrndx]; a section of type NULL has none. *)
Definition section_name (m : Memory) (ptr i : Z) : Z :=
  if (read32 m (shdr m ptr i + 4) =? SHT_NULL)
     || (section_data m ptr (shstrndx m ptr) =? nullptr)
  then nullptr
  else section_data m ptr (shstrndx m ptr) + int_of_u32 (read32 m (shdr m ptr i)).

(** Section [i] has the name [name]. *)
Definition named (m : Memory) (ptr : Z) (name : string) (i : Z) : Prop :=
  section_name m ptr i <> nullptr
  /\ cstring_at m (section_name m ptr i) (c_str name).

(** [sec] is the first section of the table with the name [name]. *)
Definition first_named (m : Memory) (ptr : Z) (name : string) (sec : Z) : Prop :=
  0 <= sec < shnum m ptr
  /\ named m ptr name sec
  /\ forall j, 0 <= j < sec -> ~ named m ptr name j.

(** No section of the table has the name [name]. *)
Definition none_named (m : Memory) (ptr : Z) (name : string) : Prop :=
  forall j, 0 <= j < shnum m ptr -> ~ named m ptr name j.

(** Entry [k] of the symbol table in section [sec]: 16 bytes. *)
Definition sym (m : Memory) (ptr sec k : Z) : Z :=
  section_data m ptr sec + 16 * k.

(** The report for entry [k]: value, name in the section that [sh_link]
    names, size, low four bits of the info byte. *)
Definition report (m : Memory) (ptr sec k : Z) : event :=
  Symbols_Add (read32 m (sym m ptr sec k + 4))
    (section_data m ptr (read32 m (shdr m ptr sec + 24))
     + read32 m (sym m ptr sec k))
    (read32 m (sym m ptr sec k + 8))
    (Z.land (read8 m (sym m ptr sec k + 12)) 15).

(** The reports for the entries of nonzero size of the table in section
    [sec], which has [sh_size / 16] entries. *)
Definition symbols (m : Memory) (ptr sec : Z) : list event :=
  map (report m ptr sec)
    (filter (fun k => negb (read32 m (sym m ptr sec k + 8) =? 0))
       (Zseq 0 (Z.to_nat (read32 m (shdr m ptr sec + 20) / 16)))).

End Image.

(** ** Images with accesses outside the buffer *)

Module Short.

(** An executable of 441 bytes whose loadable segment claims four bytes at
    file offset 4000. *)
Definition image : list Z := Eval vm_compute in
  Sample.image ET_EXEC 32768 [(PT_LOAD, 4000, 4096, 4)] SHT_PROGBITS 84 17.

Definition size : Z := Eval vm_compute in Z.of_nat (length image).


(** An emulated memory that takes every write. *)
Definition all_mapped (dest n : Z) : bool := true.

(** An emulated memory of [0x08000000] bytes from address 0. *)
Definition fcram_mapped (dest n : Z) : bool :=
  (0 <=? dest) && (dest + n <=? 134217728).

End Short.

(** * Properties *)

(** ** Integers and memory reads *)

Lemma read8_range (m : Memory) (a : Z) : 0 <= read8 m a < 256.
Proof.
  unfold read8. pose proof (Byte.to_N_bounded (m a)). lia.
Qed.

Lemma read16_range (m : Memory) (a : Z) : 0 <= read16 m a < 65536.
Proof.
  unfold read16.
  pose proof (read8_range m a). pose proof (read8_range m (a + 1)). lia.
Qed.

Lemma read32_range (m : Memory) (a : Z) : 0 <= read32 m a < 2 ^ 32.
Proof.
  unfold read32.
  pose proof (read8_range m a). pose proof (read8_range m (a + 1)).
  pose proof (read8_range m (a + 2)). pose proof (read8_range m (a + 3)).
  change (2 ^ 32) with 4294967296. lia.
Qed.

Lemma int_of_u32_small (z : Z) : 0 <= z < 2 ^ 31 -> int_of_u32 z = z.
Proof.
  intros H. unfold int_of_u32.
  change (2 ^ 31) with 2147483648 in *. change (2 ^ 32) with 4294967296.
  rewrite Z.mod_small by lia. lia.
Qed.

Lemma int_of_u32_large (z : Z) :
  2 ^ 31 <= z < 2 ^ 32 -> int_of_u32 z = z - 2 ^ 32.
Proof.
  intros H. unfold int_of_u32.
  change (2 ^ 31) with 2147483648 in *. change (2 ^ 32) with 4294967296 in *.
  replace (z + 2147483648) with (z - 2147483648 + 1 * 4294967296) by lia.
  rewrite Z.mod_add by lia. rewrite Z.mod_small by lia. lia.
Qed.

Lemma int_of_u32_cases (z : Z) :
  0 <= z < 2 ^ 32 ->
  (z < 2 ^ 31 /\ int_of_u32 z = z) \/
  (2 ^ 31 <= z /\ int_of_u32 z = z - 2 ^ 32).
Proof.
  intros H. destruct (Z_lt_le_dec z (2 ^ 31)).
  - left. split; [assumption | apply int_of_u32_small; lia].
  - right. split; [assumption | apply int_of_u32_large; lia].
Qed.

Lemma int_of_u32_eq0 (z : Z) :
  0 <= z < 2 ^ 32 -> (int_of_u32 z =? 0) = (z =? 0).
Proof.
  intros H. destruct (int_of_u32_cases z H) as [[H1 E] | [H1 E]]; rewrite E.
  - reflexivity.
  - change (2 ^ 31) with 2147483648 in *. change (2 ^ 32) with 4294967296 in *.
    destruct (Z.eqb_spec (z - 4294967296) 0), (Z.eqb_spec z 0);
      try reflexivity; lia.
Qed.

Lemma u32_of_int_of_u32 (z : Z) :
  0 <= z < 2 ^ 32 -> u32_of_int (int_of_u32 z) = z.
Proof.
  intros H. unfold u32_of_int.
  destruct (int_of_u32_cases z H) as [[H1 E] | [H1 E]]; rewrite E.
  - apply Z.mod_small. lia.
  - replace (z - 2 ^ 32) with (z + (-1) * 2 ^ 32) by lia.
    rewrite Z.mod_add by (change (2 ^ 32) with 4294967296; lia).
    apply Z.mod_small. lia.
Qed.

(** ** Index ranges *)

Lemma Zseq_In (n : nat) : forall i j,
  In j (Zseq i n) <-> i <= j < i + Z.of_nat n.
Proof.
  induction n as [| n IH]; intros i j; simpl.
  - lia.
  - rewrite IH. lia.
Qed.

Lemma Zseq_length (n : nat) : forall i, length (Zseq i n) = n.
Proof.
  induction n as [| n IH]; intros i; simpl; [reflexivity | now rewrite IH].
Qed.

(** ** Section data *)

Lemma GetSectionDataPtr_out_of_range (r : ElfReader) (index : Z) :
  index < 0 \/ e_shnum r <= index -> GetSectionDataPtr r index = nullptr.
Proof.
  intros H. unfold GetSectionDataPtr.
  destruct (Z.ltb_spec index 0); [reflexivity |].
  destruct (Z.geb_spec index (e_shnum r)); [reflexivity | lia].
Qed.

Lemma GetSectionDataPtr_in_range (r : ElfReader) (index : Z) :
  0 <= index < e_shnum r ->
  GetSectionDataPtr r index =
    if Shdr.sh_type (mem r) (section_at r index) =? SHT_NOBITS then nullptr
    else base r + int_of_u32 (Shdr.sh_offset (mem r) (section_at r index)).
Proof.
  intros H. unfold GetSectionDataPtr, GetPtr.
  destruct (Z.ltb_spec index 0); [lia |].
  destruct (Z.geb_spec index (e_shnum r)); [lia |].
  simpl. destruct (_ =? SHT_NOBITS); reflexivity.
Qed.

(** The index is compared as an [int]; an [unsigned] index that does not fit
    is out of range either way. *)
Lemma GetSectionDataPtr_int_index (r : ElfReader) (index : Z) :
  0 <= index < 2 ^ 32 ->
  GetSectionDataPtr r (int_of_u32 index) = GetSectionDataPtr r index.
Proof.
  intros H. destruct (int_of_u32_cases index H) as [[_ E] | [H1 E]]; rewrite E.
  - reflexivity.
  - pose proof (read16_range (mem r) (header r + 48)) as Hn.
    fold (Ehdr.e_shnum (mem r) (header r)) in Hn. fold (e_shnum r) in Hn.
    change (2 ^ 31) with 2147483648 in *. change (2 ^ 32) with 4294967296 in *.
    rewrite !GetSectionDataPtr_out_of_range; [reflexivity | lia | lia].
Qed.

(** The exact pointer for a section with file data: the offset goes through
    the [int] parameter of [GetPtr]. *)
Lemma GetSectionDataPtr_large_offset (r : ElfReader) (index : Z) :
  0 <= index < e_shnum r ->
  Shdr.sh_type (mem r) (section_at r index) <> SHT_NOBITS ->
  2 ^ 31 <= Shdr.sh_offset (mem r) (section_at r index) ->
  GetSectionDataPtr r index =
    base r + Shdr.sh_offset (mem r) (section_at r index) - 2 ^ 32.
Proof.
  intros H Hty Ho. rewrite GetSectionDataPtr_in_range by assumption.
  destruct (Z.eqb_spec (Shdr.sh_type (mem r) (section_at r index)) SHT_NOBITS);
    [contradiction |].
  pose proof (read32_range (mem r) (section_at r index + 16)) as Hr.
  fold (Shdr.sh_offset (mem r) (section_at r index)) in Hr.
  rewrite int_of_u32_large by lia. lia.
Qed.

(** Where [GetSectionDataPtr] does what is asked of it: it returns [nullptr]
    for an index that is negative or at least [e_shnum], and for a section of
    type NOBITS whatever its size and offset are; for any other section whose
    [sh_offset] is below [2^31] it returns the pointer to file offset
    [sh_offset] of the image. *)
Theorem GetSectionDataPtr_spec (r : ElfReader) (index : Z) :
  (index < 0 \/ e_shnum r <= index -> GetSectionDataPtr r index = nullptr)
  /\ (0 <= index < e_shnum r ->
      Shdr.sh_type (mem r) (section_at r index) = SHT_NOBITS ->
      GetSectionDataPtr r index = nullptr)
  /\ (0 <= index < e_shnum r ->
      Shdr.sh_type (mem r) (section_at r index) <> SHT_NOBITS ->
      Shdr.sh_offset (mem r) (section_at r index) < 2 ^ 31 ->
      GetSectionDataPtr r index =
        base r + Shdr.sh_offset (mem r) (section_at r index)).
Proof.
  split; [apply GetSectionDataPtr_out_of_range |].
  split.
  - intros H Hty. rewrite GetSectionDataPtr_in_range by assumption.
    rewrite Hty. reflexivity.
  - intros H Hty Ho. rewrite GetSectionDataPtr_in_range by assumption.
    destruct (Z.eqb_spec (Shdr.sh_type (mem r) (section_at r index)) SHT_NOBITS);
      [contradiction |].
    pose proof (read32_range (mem r) (section_at r index + 16)) as Hr.
    fold (Shdr.sh_offset (mem r) (section_at r index)) in Hr.
    rewrite int_of_u32_small by lia. reflexivity.
Qed.

(** Not every section with file data gets the pointer [base + sh_offset]:
    the [.text] section of [Sample.far_reader] is in range, is not NOBITS and
    has [sh_offset = 2^31], which lies inside the buffer. *)
Lemma GetSectionDataPtr_not_at_sh_offset :
  ~ (forall (r : ElfReader) (index : Z),
       0 <= index < e_shnum r ->
       Shdr.sh_type (mem r) (section_at r index) <> SHT_NOBITS ->
       GetSectionDataPtr r index =
         base r + Shdr.sh_offset (mem r) (section_at r index)).
Proof.
  intros H. specialize (H Sample.far_reader 1).
  assert (E : e_shnum Sample.far_reader = 6) by (vm_compute; reflexivity).
  rewrite E in H.
  assert (A : GetSectionDataPtr Sample.far_reader 1 = -2146435072)
    by (vm_compute; reflexivity).
  assert (B : base Sample.far_reader
              + Shdr.sh_offset (mem Sample.far_reader)
                  (section_at Sample.far_reader 1) = 2148532224)
    by (vm_compute; reflexivity).
  rewrite A, B in H.
  assert (C : Shdr.sh_type (mem Sample.far_reader)
                (section_at Sample.far_reader 1) = 1)
    by (vm_compute; reflexivity).
  rewrite C in H. unfold SHT_NOBITS in H.
  assert (-2146435072 = 2148532224) by (apply H; lia).
  discriminate.
Qed.

(** The cases of C5 on the sections of [Sample.dyn_image]: before the
    table, the null section, [.text], [.bss] (NOBITS, with a size and an
    offset), past the table. *)
Example GetSectionDataPtr_dyn :
  map (GetSectionDataPtr Sample.dyn_reader) [-1; 0; 1; 5; 6]
  = [nullptr; Sample.buffer; Sample.buffer + 148; nullptr; nullptr].
Proof. vm_compute. reflexivity. Qed.

(** On [Sample.far_reader] the section data at [sh_offset] lies inside the
    buffer and the pointer returned lies [2^31] bytes before it; the bytes
    behind the two differ. *)
Example GetSectionDataPtr_far :
  in_buffer Sample.buffer Sample.far_size
    (base Sample.far_reader
     + Shdr.sh_offset (mem Sample.far_reader) (section_at Sample.far_reader 1)) 4
  = true
  /\ GetSectionDataPtr Sample.far_reader 1 = Sample.buffer - 2 ^ 31
  /\ in_buffer Sample.buffer Sample.far_size
       (GetSectionDataPtr Sample.far_reader 1) 4 = false
  /\ read32 (mem Sample.far_reader) (Sample.buffer + 2 ^ 31) = 4022250974
  /\ read32 (mem Sample.far_reader) (GetSectionDataPtr Sample.far_reader 1) = 0.
Proof. vm_compute. repeat split; reflexivity. Qed.

(** ** Segment loading *)

(** The loop makes the store and the copy of every LOAD entry it visits, in
    the order of the array, and nothing else; the contents the local array
    starts with play no part. *)
Lemma LoadInto_loop_events (r : ElfReader) (base_addr : Z) (fuel : nat) :
  forall (i : Z) (segment_addr : Z -> Z),
    LoadInto_loop r base_addr fuel i segment_addr =
    flat_map
      (fun k =>
         [segment_addr_set k
            (u32 (base_addr + Phdr.p_vaddr (mem r) (segment_at r k)));
          memcpy_to_Memory
            (u32 (base_addr + Phdr.p_vaddr (mem r) (segment_at r k)))
            (GetSegmentPtr r k) (Phdr.p_filesz (mem r) (segment_at r k))])
      (filter (is_load r) (Zseq i fuel)).
Proof.
  induction fuel as [| fuel IH]; intros i segment_addr; simpl.
  - reflexivity.
  - unfold is_load at 1.
    destruct (Phdr.p_type (mem r) (segment_at r i) =? PT_LOAD); simpl.
    + unfold array_set at 1. rewrite Z.eqb_refl. rewrite IH. reflexivity.
    + apply IH.
Qed.

Lemma LoadInto_from_trace (segment_addr0 : Z -> Z) (r : ElfReader) (vaddr : Z) :
  snd (LoadInto_from segment_addr0 r vaddr) =
    flat_map (segment_events r vaddr) (load_indices r).
Proof.
  unfold LoadInto_from. cbn [snd]. rewrite LoadInto_loop_events.
  unfold load_indices, segment_events, segment_store, segment_copy,
    segment_copy_from, target_addr, base_addr_of, GetSegmentPtr, GetPtr.
  destruct (e_type r =? ET_EXEC); reflexivity.
Qed.

Lemma LoadInto_trace_events (r : ElfReader) (vaddr : Z) :
  LoadInto_trace r vaddr = flat_map (segment_events r vaddr) (load_indices r).
Proof. apply LoadInto_from_trace. Qed.

Lemma filter_memcpy_events (r : ElfReader) (vaddr : Z) (l : list Z) :
  filter is_memcpy (flat_map (segment_events r vaddr) l)
  = map (segment_copy r vaddr) l.
Proof.
  induction l as [| i l IH]; simpl; [reflexivity | now rewrite IH].
Qed.

Lemma filter_store_events (r : ElfReader) (vaddr : Z) (l : list Z) :
  filter is_segment_addr_set (flat_map (segment_events r vaddr) l)
  = map (segment_store r vaddr) l.
Proof.
  induction l as [| i l IH]; simpl; [reflexivity | now rewrite IH].
Qed.

Lemma filter_symbol_events (r : ElfReader) (vaddr : Z) (l : list Z) :
  filter is_Symbols_Add (flat_map (segment_events r vaddr) l) = [].
Proof.
  induction l as [| i l IH]; simpl; [reflexivity | exact IH].
Qed.

(** The copies of a call, exactly: one per LOAD entry, in the order of the
    array, the source being [GetSegmentPtr]. *)
Lemma LoadInto_copies (r : ElfReader) (vaddr : Z) :
  filter is_memcpy (LoadInto_trace r vaddr)
  = map (segment_copy r vaddr) (load_indices r).
Proof. rewrite LoadInto_trace_events. apply filter_memcpy_events. Qed.

Lemma segment_copy_write_of_entry (r : ElfReader) (vaddr i : Z) :
  write_of_entry r vaddr i (segment_copy r vaddr i).
Proof.
  exists (base r + int_of_u32 (Phdr.p_offset (mem r) (segment_at r i))).
  split; [reflexivity |]. intros H.
  pose proof (read32_range (mem r) (segment_at r i + 4)) as Hr.
  fold (Phdr.p_offset (mem r) (segment_at r i)) in Hr.
  rewrite int_of_u32_small by lia. reflexivity.
Qed.

(** C1.  After construction, a call of [LoadInto] sets the relocation flag
    to [true] exactly when [e_type] is not [ET_EXEC]; the entry point is then
    [e_entry + vaddr] (in [u32] arithmetic), and it is [e_entry] itself when
    the type is [ET_EXEC]. *)
Theorem LoadInto_relocate_entry (m : Memory) (ptr vaddr : Z) :
  DidRelocate (LoadInto_reader (constructed m ptr) vaddr)
  = Some (negb (Ehdr.e_type m ptr =? ET_EXEC))
  /\ (DidRelocate (LoadInto_reader (constructed m ptr) vaddr) = Some true
      <-> Ehdr.e_type m ptr <> ET_EXEC)
  /\ GetEntryPoint (LoadInto_reader (constructed m ptr) vaddr)
     = if Ehdr.e_type m ptr =? ET_EXEC then Ehdr.e_entry m ptr
       else u32 (Ehdr.e_entry m ptr + vaddr).
Proof.
  unfold DidRelocate, GetEntryPoint, LoadInto_reader, LoadInto, LoadInto_from,
    constructed, ElfReader_ctor, e_type.
  cbn [fst snd relocate entryPoint mem header].
  destruct (Z.eqb_spec (Ehdr.e_type m ptr) ET_EXEC) as [E | E];
    cbn [negb]; repeat split; try reflexivity;
    try discriminate; try congruence.
Qed.

(** C1 on the samples: a module of type DYN loaded at [0x100000] and an
    executable. *)
Example LoadInto_relocate_entry_samples :
  (DidRelocate (LoadInto_reader Sample.dyn_reader 1048576),
   GetEntryPoint (LoadInto_reader Sample.dyn_reader 1048576)) =
  (Some true, 32768 + 1048576)
  /\ (DidRelocate (LoadInto_reader Sample.exec_reader 1048576),
      GetEntryPoint (LoadInto_reader Sample.exec_reader 1048576)) =
     (Some false, 32768).
Proof. vm_compute. split; reflexivity. Qed.

(** On the flat memory, where no access is refused, [LoadInto] returns
    [true] for every reader and every base address, with the relocation flag
    assigned, after at most one store and one copy per program header. *)
Lemma LoadInto_flat_returns_true (r : ElfReader) (vaddr : Z) :
  LoadInto_result r vaddr = true
  /\ DidRelocate (LoadInto_reader r vaddr) <> None
  /\ (length (LoadInto_trace r vaddr) <= 2 * Z.to_nat (e_phnum r))%nat.
Proof.
  split; [reflexivity |]. split; [discriminate |].
  rewrite LoadInto_trace_events. unfold load_indices.
  rewrite <- (Zseq_length (Z.to_nat (e_phnum r)) 0) at 2.
  generalize (Zseq 0 (Z.to_nat (e_phnum r))). intros l.
  induction l as [| i l IH]; simpl; [lia |].
  destruct (is_load r i); simpl; lia.
Qed.

(** On the flat memory this is so also where the segment data is read
    outside the buffer (the copy of [Sample.far_reader] starts before it). *)
Example LoadInto_flat_out_of_range :
  LoadInto_trace Sample.far_reader 0
  = [segment_addr_set 0 4096;
     memcpy_to_Memory 4096 (Sample.buffer - 2 ^ 31) 4]
  /\ in_buffer Sample.buffer Sample.far_size (Sample.buffer - 2 ^ 31) 4 = false
  /\ LoadInto_result Sample.far_reader 0 = true.
Proof. vm_compute. repeat split; reflexivity. Qed.

(** Where [LoadInto] writes what is asked of it: it makes exactly one write
    per program header of type LOAD among the [e_phnum] entries, in the order
    of the array, and no other write; the write for an entry copies
    [p_filesz] bytes to the target address [(relocate ? vaddr : 0) + p_vaddr]
    (in [u32] arithmetic), taken from file offset [p_offset] of the image
    when [p_offset] is below [2^31]. *)
Theorem LoadInto_writes (r : ElfReader) (vaddr : Z) :
  length (filter is_memcpy (LoadInto_trace r vaddr)) = length (load_indices r)
  /\ Forall2 (write_of_entry r vaddr) (load_indices r)
       (filter is_memcpy (LoadInto_trace r vaddr)).
Proof.
  rewrite LoadInto_copies. split; [apply length_map |].
  induction (load_indices r) as [| i l IH]; simpl; constructor.
  - apply segment_copy_write_of_entry.
  - exact IH.
Qed.

(** Not every write takes its bytes at [p_offset]: the LOAD entry of
    [Sample.far_reader] has [p_offset = 2^31], inside the buffer. *)
Lemma LoadInto_write_not_at_p_offset :
  ~ (forall (r : ElfReader) (vaddr : Z),
       filter is_memcpy (LoadInto_trace r vaddr)
       = map (segment_copy_at_p_offset r vaddr) (load_indices r)).
Proof.
  intros H. specialize (H Sample.far_reader 0).
  assert (A : filter is_memcpy (LoadInto_trace Sample.far_reader 0)
              = [memcpy_to_Memory 4096 (-2146435072) 4])
    by (vm_compute; reflexivity).
  assert (B : map (segment_copy_at_p_offset Sample.far_reader 0)
                (load_indices Sample.far_reader)
              = [memcpy_to_Memory 4096 2148532224 4])
    by (vm_compute; reflexivity).
  rewrite A, B in H. clear A B. discriminate H.
Qed.

(** The writes of the samples.  The relocatable module has two LOAD entries
    around a NOTE entry; the executable is the scenario of one LOAD segment
    with the bytes DE AD BE EF for address [0x1000]. *)
Example LoadInto_writes_samples :
  filter is_memcpy (LoadInto_trace Sample.dyn_reader 1048576)
  = [memcpy_to_Memory (1048576 + 4096) (Sample.buffer + 148) 4;
     memcpy_to_Memory (1048576 + 12288) (Sample.buffer + 148) 0]
  /\ filter is_memcpy (LoadInto_trace Sample.exec_reader 1048576)
     = [memcpy_to_Memory 4096 (Sample.buffer + 84) 4]
  /\ map (read8 (Memory_apply (mem Sample.exec_reader)
                   (LoadInto_trace Sample.exec_reader 0) (fun _ => x00)))
       [4095; 4096; 4097; 4098; 4099; 4100]
     = [0; 222; 173; 190; 239; 0].
Proof. vm_compute. repeat split; reflexivity. Qed.

(** The bytes the far sample gets at [0x1000] are not those at file offset
    [2^31]. *)
Example LoadInto_writes_far :
  map (read8 (mem Sample.far_reader))
    [Sample.buffer + 2 ^ 31; Sample.buffer + 2 ^ 31 + 1;
     Sample.buffer + 2 ^ 31 + 2; Sample.buffer + 2 ^ 31 + 3]
  = [222; 173; 190; 239]
  /\ map (read8 (Memory_apply (mem Sample.far_reader)
                   (LoadInto_trace Sample.far_reader 0) (fun _ => x01)))
       [4096; 4097; 4098; 4099]
     = [0; 0; 0; 0].
Proof. vm_compute. split; reflexivity. Qed.

(** ** The local array of segment addresses *)

Lemma LoadInto_stores (r : ElfReader) (vaddr : Z) :
  filter is_segment_addr_set (LoadInto_trace r vaddr)
  = map (segment_store r vaddr) (load_indices r).
Proof. rewrite LoadInto_trace_events. apply filter_store_events. Qed.

Lemma e_phnum_range (r : ElfReader) : 0 <= e_phnum r < 65536.
Proof. apply read16_range. Qed.

Lemma e_shnum_range (r : ElfReader) : 0 <= e_shnum r < 65536.
Proof. apply read16_range. Qed.

Lemma load_indices_In (r : ElfReader) (i : Z) :
  In i (load_indices r) <-> 0 <= i < e_phnum r /\ is_load r i = true.
Proof.
  unfold load_indices. rewrite filter_In, Zseq_In.
  pose proof (e_phnum_range r). rewrite Z2Nat.id by lia.
  intuition lia.
Qed.

(** C9.  The stores to [segment_addr] are made at the indices of the LOAD
    entries.  When [e_phnum] is at most 32 every store of a call lies inside
    the 32 entries of the array; a LOAD entry at an index from 32 on has its
    store made, outside the array. *)
Theorem segment_addr_bounds (r : ElfReader) (vaddr : Z) :
  (e_phnum r <= 32 ->
   forallb store_in_bounds (LoadInto_trace r vaddr) = true)
  /\ (forall i,
        32 <= i < e_phnum r -> is_load r i = true ->
        In (segment_addr_set i (target_addr r vaddr i)) (LoadInto_trace r vaddr)
        /\ segment_addr_in_bounds i = false).
Proof.
  rewrite LoadInto_trace_events. split.
  - intros H. apply forallb_forall. intros e He.
    apply in_flat_map in He. destruct He as [i [Hi He]].
    apply load_indices_In in Hi. destruct Hi as [Hi _].
    destruct He as [<- | [<- | []]]; simpl; [| reflexivity].
    unfold segment_addr_in_bounds.
    apply andb_true_intro. split; [apply Z.leb_le | apply Z.ltb_lt]; lia.
  - intros i Hi Hl. split.
    + apply in_flat_map. exists i. split.
      * apply load_indices_In. split; [lia | assumption].
      * left. reflexivity.
    + unfold segment_addr_in_bounds.
      apply andb_false_intro2. apply Z.ltb_ge. lia.
Qed.

(** C9 on the samples: three program headers, and 33 of them with the last
    one of type LOAD. *)
Example segment_addr_bounds_samples :
  forallb store_in_bounds (LoadInto_trace Sample.dyn_reader 1048576) = true
  /\ e_phnum Sample.wide_reader = 33
  /\ LoadInto_trace Sample.wide_reader 0
     = [segment_addr_set 32 4096; memcpy_to_Memory 4096 Sample.buffer 4]
  /\ forallb store_in_bounds (LoadInto_trace Sample.wide_reader 0) = false.
Proof. vm_compute. repeat split; reflexivity. Qed.

(** ** Repeated loading *)

Lemma LoadInto_reader_mem (r : ElfReader) (vaddr : Z) :
  mem (LoadInto_reader r vaddr) = mem r
  /\ header (LoadInto_reader r vaddr) = header r.
Proof. split; reflexivity. Qed.

Lemma LoadInto_times_header (n : nat) (r : ElfReader) (vaddr : Z) :
  e_type (LoadInto_times n r vaddr) = e_type r.
Proof.
  induction n as [| n IH]; simpl; [reflexivity |].
  unfold e_type in *. cbn. exact IH.
Qed.

Lemma LoadInto_times_entry (n : nat) (r : ElfReader) (vaddr : Z) :
  e_type r <> ET_EXEC ->
  entryPoint (LoadInto_times (S n) r vaddr)
  = u32 (entryPoint r + Z.of_nat (S n) * vaddr).
Proof.
  intros Hty. induction n as [| n IH].
  - cbn [LoadInto_times]. unfold LoadInto_reader, LoadInto, LoadInto_from.
    cbn [fst snd entryPoint].
    destruct (Z.eqb_spec (e_type r) ET_EXEC); [contradiction |]. cbn [negb].
    f_equal. lia.
  - change (LoadInto_times (S (S n)) r vaddr)
      with (LoadInto_reader (LoadInto_times (S n) r vaddr) vaddr).
    unfold LoadInto_reader at 1. unfold LoadInto, LoadInto_from.
    cbn [fst snd entryPoint].
    rewrite LoadInto_times_header.
    destruct (Z.eqb_spec (e_type r) ET_EXEC); [contradiction |]. cbn [negb].
    rewrite IH. unfold u32. rewrite Z.add_mod_idemp_l by lia.
    f_equal. lia.
Qed.

(** C10.  For a reader over an image whose type is not [ET_EXEC], every call
    of [LoadInto] with base [vaddr] adds [vaddr] to the stored entry point:
    after [n] calls [GetEntryPoint] is [e_entry + n * vaddr] (in [u32]
    arithmetic), and for a nonzero base two calls leave another entry point
    than one call. *)
Theorem LoadInto_entry_accumulates (m : Memory) (ptr vaddr : Z)
    (Hty : Ehdr.e_type m ptr <> ET_EXEC) :
  (forall n : nat,
     GetEntryPoint (LoadInto_times n (constructed m ptr) vaddr)
     = u32 (Ehdr.e_entry m ptr + Z.of_nat n * vaddr))
  /\ (0 < vaddr < 2 ^ 32 ->
      GetEntryPoint (LoadInto_times 2 (constructed m ptr) vaddr)
      <> GetEntryPoint (LoadInto_times 1 (constructed m ptr) vaddr)).
Proof.
  assert (A : forall n : nat,
     GetEntryPoint (LoadInto_times n (constructed m ptr) vaddr)
     = u32 (Ehdr.e_entry m ptr + Z.of_nat n * vaddr)).
  { intros [| n].
    - simpl. unfold GetEntryPoint, constructed, ElfReader_ctor. cbn.
      unfold u32. rewrite Z.add_0_r. symmetry. apply Z.mod_small.
      apply read32_range.
    - unfold GetEntryPoint. rewrite LoadInto_times_entry; [reflexivity |].
      exact Hty. }
  split; [exact A |].
  intros Hv. rewrite !A. unfold u32. intros E.
  assert (D : (Ehdr.e_entry m ptr + Z.of_nat 2 * vaddr
               - (Ehdr.e_entry m ptr + Z.of_nat 1 * vaddr)) mod 2 ^ 32 = 0).
  { rewrite Zminus_mod, E, Z.sub_diag. reflexivity. }
  replace (Ehdr.e_entry m ptr + Z.of_nat 2 * vaddr
           - (Ehdr.e_entry m ptr + Z.of_nat 1 * vaddr)) with vaddr in D by lia.
  rewrite Z.mod_small in D by lia. lia.
Qed.

(** C10 on the relocatable sample, loaded at [0x100000]. *)
Lemma LoadInto_entry_accumulates_witness :
  GetEntryPoint (LoadInto_times 3 Sample.dyn_reader 1048576)
  = 32768 + 3 * 1048576
  /\ GetEntryPoint (LoadInto_times 2 Sample.dyn_reader 1048576)
     <> GetEntryPoint (LoadInto_times 1 Sample.dyn_reader 1048576).
Proof.
  assert (Hty : Ehdr.e_type (Sample.memory_of Sample.buffer Sample.dyn_image)
                  Sample.buffer <> ET_EXEC)
    by (vm_compute; discriminate).
  destruct (LoadInto_entry_accumulates _ _ 1048576 Hty) as [A B].
  split.
  - exact (eq_trans (A 3%nat) eq_refl).
  - apply B. split; reflexivity.
Defined.

(** ** Section names *)

Lemma strcmp_eq_cstring (m : Memory) (s : string) :
  forall p, strcmp_eq m s p = true <-> cstring_at m p (c_str s).
Proof.
  induction s as [| c s IH]; intros p; simpl.
  - apply Z.eqb_eq.
  - destruct (Z.eqb_spec (char_code c) 0) as [E | E]; simpl.
    + apply Z.eqb_eq.
    + rewrite andb_true_iff, Z.eqb_eq, IH. tauto.
Qed.



(** The scan obeys the recurrence of the [for] loop: the fuel it is given is
    the number of iterations the loop condition [i < e_shnum] allows. *)
Lemma GetSectionByName_unfold (r : ElfReader) (name : string) (i : Z) :
  GetSectionByName r name i =
    if i <? e_shnum r then
      if section_matches r name i then i else GetSectionByName r name (i + 1)
    else -1.
Proof.
  unfold GetSectionByName. destruct (Z.ltb_spec i (e_shnum r)).
  - replace (Z.to_nat (e_shnum r - i))
      with (S (Z.to_nat (e_shnum r - (i + 1)))) by lia.
    reflexivity.
  - replace (Z.to_nat (e_shnum r - i)) with O by lia. reflexivity.
Qed.

Lemma GetSectionByName_loop_spec (r : ElfReader) (name : string) (fuel : nat) :
  forall i,
    (i <= GetSectionByName_loop r name fuel i < i + Z.of_nat fuel
     /\ section_matches r name (GetSectionByName_loop r name fuel i) = true
     /\ (forall j, i <= j < GetSectionByName_loop r name fuel i ->
                   section_matches r name j = false))
    \/ (GetSectionByName_loop r name fuel i = -1
        /\ forall j, i <= j < i + Z.of_nat fuel ->
                     section_matches r name j = false).
Proof.
  induction fuel as [| fuel IH]; intros i.
  - right. split; [reflexivity |]. intros j Hj. lia.
  - cbn [GetSectionByName_loop].
    destruct (section_matches r name i) eqn:E.
    + left. split; [lia |]. split; [exact E |]. intros j Hj. lia.
    + destruct (IH (i + 1)) as [[Hr [Hm Hb]] | [Hr Hn]].
      * left. split; [lia |]. split; [exact Hm |].
        intros j Hj. destruct (Z.eq_dec j i) as [-> | Hne];
          [exact E | apply Hb; lia].
      * right. split; [exact Hr |].
        intros j Hj. destruct (Z.eq_dec j i) as [-> | Hne];
          [exact E | apply Hn; lia].
Qed.

(** The scan, from [firstSection] up to [e_shnum]: the first match or -1. *)
Lemma GetSectionByName_scan (r : ElfReader) (name : string) (firstSection : Z) :
  (firstSection <= GetSectionByName r name firstSection < e_shnum r
   /\ section_matches r name (GetSectionByName r name firstSection) = true
   /\ (forall j, firstSection <= j < GetSectionByName r name firstSection ->
                 section_matches r name j = false))
  \/ (GetSectionByName r name firstSection = -1
      /\ forall j, firstSection <= j < e_shnum r ->
                   section_matches r name j = false).
Proof.
  unfold GetSectionByName.
  destruct (GetSectionByName_loop_spec r name
              (Z.to_nat (e_shnum r - firstSection)) firstSection)
    as [[Hr [Hm Hb]] | [Hr Hn]].
  - left. split; [lia |]. split; assumption.
  - right. split; [exact Hr |]. intros j Hj. apply Hn. lia.
Qed.

Lemma GetSectionByName_first (r : ElfReader) (name : string)
    (firstSection sec : Z) :
  firstSection <= sec < e_shnum r ->
  section_matches r name sec = true ->
  (forall j, firstSection <= j < sec -> section_matches r name j = false) ->
  GetSectionByName r name firstSection = sec.
Proof.
  intros Hs Hm Hb.
  destruct (GetSectionByName_scan r name firstSection)
    as [[Hr [Hm' Hb']] | [_ Hn]].
  - destruct (Z.lt_trichotomy (GetSectionByName r name firstSection) sec)
      as [Hlt | [Heq | Hgt]].
    + rewrite Hb in Hm' by lia. discriminate.
    + exact Heq.
    + rewrite Hb' in Hm by lia. discriminate.
  - rewrite Hn in Hm by lia. discriminate.
Qed.

Lemma GetSectionByName_none (r : ElfReader) (name : string) (firstSection : Z) :
  (forall j, firstSection <= j < e_shnum r -> section_matches r name j = false) ->
  GetSectionByName r name firstSection = -1.
Proof.
  intros Hn.
  destruct (GetSectionByName_scan r name firstSection)
    as [[Hr [Hm _]] | [Hr _]]; [| exact Hr].
  rewrite Hn in Hm by lia. discriminate.
Qed.


(** C4 on the sections of [Sample.dyn_image]: the names found, a name no
    section has, a scan that starts after the match, and the empty name,
    which the null section (whose [sh_name] is 0) does not match. *)
Example GetSectionByName_samples :
  map (fun name => GetSectionByName Sample.dyn_reader name 0)
    [".text"; ".shstrtab"; ".symtab"; ".strtab"; ".bss"; ".data"; ".sym";
     EmptyString]%string
  = [1; 2; 3; 4; 5; -1; -1; -1]
  /\ GetSectionByName Sample.dyn_reader ".symtab" 4 = -1
  /\ GetSectionByName Sample.dyn_reader ".symtab" (-3) = 3.
Proof. vm_compute. repeat split; reflexivity. Qed.

(** ** Symbol extraction *)

Lemma symbol_event_reported (r : ElfReader) (sec k : Z) :
  symbol_event r (GetSectionDataPtr r sec)
    (GetSectionDataPtr r
       (int_of_u32 (Shdr.sh_link (mem r) (section_at r sec)))) k
  = reported_symbol r sec k.
Proof.
  unfold symbol_event, reported_symbol.
  rewrite GetSectionDataPtr_int_index by apply read32_range.
  rewrite u32_of_int_of_u32 by apply read32_range.
  reflexivity.
Qed.

(** The loop reports the entries of nonzero size among those it visits, in
    table order, and leaves [hasSymbols] set once it has reported one. *)
Lemma LoadSymbols_loop_spec (r : ElfReader) (symtab stringBase : Z)
    (fuel : nat) :
  forall (sym : Z) (hasSymbols : bool),
    LoadSymbols_loop r symtab stringBase fuel sym hasSymbols =
    (hasSymbols
     || nonempty (filter (has_size r symtab) (Zseq sym fuel)),
     map (symbol_event r symtab stringBase)
       (filter (has_size r symtab) (Zseq sym fuel))).
Proof.
  induction fuel as [| fuel IH]; intros sym hasSymbols.
  - simpl. rewrite orb_false_r. reflexivity.
  - cbn [LoadSymbols_loop Zseq filter].
    rewrite int_of_u32_eq0 by apply read32_range.
    assert (E : has_size r symtab sym
                = negb (Sym.st_size (mem r) (symtab + sizeof_Elf32_Sym * sym)
                        =? 0)) by reflexivity.
    rewrite E. clear E.
    destruct (Sym.st_size (mem r) (symtab + sizeof_Elf32_Sym * sym) =? 0);
      cbn [negb].
    + apply IH.
    + rewrite IH. cbn [nonempty map]. rewrite orb_true_r. reflexivity.
Qed.

Lemma numSymbols_int (r : ElfReader) (sec : Z) :
  int_of_u32 (Shdr.sh_size (mem r) (section_at r sec) / sizeof_Elf32_Sym)
  = Shdr.sh_size (mem r) (section_at r sec) / sizeof_Elf32_Sym.
Proof.
  pose proof (read32_range (mem r) (section_at r sec + 20)) as H.
  fold (Shdr.sh_size (mem r) (section_at r sec)) in H.
  apply int_of_u32_small. unfold sizeof_Elf32_Sym.
  change (2 ^ 32) with 4294967296 in H. change (2 ^ 31) with 2147483648.
  split.
  - apply Z.div_pos; lia.
  - apply Z.div_lt_upper_bound; lia.
Qed.

Lemma nonempty_map {A B : Type} (f : A -> B) (l : list A) :
  nonempty (map f l) = nonempty l.
Proof. destruct l; reflexivity. Qed.


(** With a section named [.symtab], found at index [sec]. *)
Lemma LoadSymbols_found (r : ElfReader) :
  GetSectionByName r ".symtab" 0 <> -1 ->
  LoadSymbols r =
    (nonempty (symtab_symbols r (GetSectionByName r ".symtab" 0)),
     symtab_symbols r (GetSectionByName r ".symtab" 0)).
Proof.
  intros H. unfold LoadSymbols.
  destruct (Z.eqb_spec (GetSectionByName r ".symtab" 0) (-1));
    [contradiction |].
  cbn [negb]. rewrite LoadSymbols_loop_spec, numSymbols_int.
  unfold symtab_symbols, symtab_entries. rewrite nonempty_map.
  cbn [orb]. f_equal.
  apply map_ext. intros k. apply symbol_event_reported.
Qed.

Lemma LoadSymbols_not_found (r : ElfReader) :
  GetSectionByName r ".symtab" 0 = -1 -> LoadSymbols r = (false, []).
Proof. intros H. unfold LoadSymbols. rewrite H. reflexivity. Qed.

Lemma LoadSymbols_expected (r : ElfReader) :
  LoadSymbols r = (nonempty (expected_symbols r), expected_symbols r).
Proof.
  unfold expected_symbols.
  destruct (Z.eqb_spec (GetSectionByName r ".symtab" 0) (-1)) as [E | E].
  - apply LoadSymbols_not_found. exact E.
  - apply LoadSymbols_found. exact E.
Qed.


(** C3 on the samples.  The table of [Sample.dyn_image] has four entries,
    two of them of size 0; [Sample.stripped_image] has no section named
    [.symtab]. *)
Example LoadSymbols_samples :
  LoadSymbols Sample.dyn_reader
  = (true,
     [Symbols_Add 4096 (Sample.buffer + 191) 4 2;
      Symbols_Add 8192 (Sample.buffer + 196) 8 1])
  /\ cstring_at (mem Sample.dyn_reader) (Sample.buffer + 191) (c_str "main")
  /\ cstring_at (mem Sample.dyn_reader) (Sample.buffer + 196) (c_str "data")
  /\ LoadSymbols Sample.stripped_reader = (false, []).
Proof.
  vm_compute. repeat split; try reflexivity; discriminate.
Qed.

(** ** Construction *)

(** The constructor makes the calls of one run of [LoadSymbols] on the
    reader it builds, and [LoadInto] makes no report, so that in a
    construction followed by a load the reports are those of the constructor
    and come before the first copy. *)
Lemma construction_runs_LoadSymbols (m : Memory) (ptr vaddr : Z) :
  snd (ElfReader_ctor m ptr) = snd (LoadSymbols (constructed m ptr))
  /\ snd (ElfReader_ctor m ptr) = expected_symbols (constructed m ptr)
  /\ forallb is_Symbols_Add (snd (ElfReader_ctor m ptr)) = true
  /\ filter is_Symbols_Add (LoadInto_trace (constructed m ptr) vaddr) = []
  /\ filter is_Symbols_Add (load_sequence m ptr vaddr)
     = expected_symbols (constructed m ptr)
  /\ (exists rest,
        load_sequence m ptr vaddr
        = expected_symbols (constructed m ptr) ++ rest
        /\ filter is_Symbols_Add rest = []).
Proof.
  assert (A : snd (ElfReader_ctor m ptr) = expected_symbols (constructed m ptr)).
  { unfold ElfReader_ctor, constructed. cbn [fst snd].
    rewrite LoadSymbols_expected. reflexivity. }
  assert (B : forallb is_Symbols_Add (expected_symbols (constructed m ptr))
              = true).
  { unfold expected_symbols. destruct (_ =? -1); [reflexivity |].
    unfold symtab_symbols. apply forallb_forall. intros e He.
    apply in_map_iff in He. destruct He as [k [<- _]]. reflexivity. }
  assert (C : filter is_Symbols_Add (LoadInto_trace (constructed m ptr) vaddr)
              = []).
  { rewrite LoadInto_trace_events. apply filter_symbol_events. }
  split; [reflexivity |]. split; [exact A |].
  split; [rewrite A; exact B |]. split; [exact C |].
  split.
  - unfold load_sequence. rewrite filter_app, C, app_nil_r, A.
    apply forallb_filter_id. exact B.
  - exists (LoadInto_trace (constructed m ptr) vaddr).
    unfold load_sequence. rewrite A. split; [reflexivity | exact C].
Qed.

(** The calls of a construction and a load on the relocatable sample. *)
Example construction_reports_symbols_sample :
  snd (ElfReader_ctor (Sample.memory_of Sample.buffer Sample.dyn_image)
         Sample.buffer)
  = [Symbols_Add 4096 (Sample.buffer + 191) 4 2;
     Symbols_Add 8192 (Sample.buffer + 196) 8 1]
  /\ load_sequence (Sample.memory_of Sample.buffer Sample.dyn_image)
       Sample.buffer 1048576
     = [Symbols_Add 4096 (Sample.buffer + 191) 4 2;
        Symbols_Add 8192 (Sample.buffer + 196) 8 1;
        segment_addr_set 0 (1048576 + 4096);
        memcpy_to_Memory (1048576 + 4096) (Sample.buffer + 148) 4;
        segment_addr_set 2 (1048576 + 12288);
        memcpy_to_Memory (1048576 + 12288) (Sample.buffer + 148) 0].
Proof. vm_compute. split; reflexivity. Qed.

(** ** Determinism of construction *)

Lemma read8_ext (m1 m2 : Memory) (a : Z) :
  mem_eq m1 m2 -> read8 m1 a = read8 m2 a.
Proof. intros H. unfold read8. rewrite (H a). reflexivity. Qed.

Lemma read16_ext (m1 m2 : Memory) (a : Z) :
  mem_eq m1 m2 -> read16 m1 a = read16 m2 a.
Proof.
  intros H. unfold read16. rewrite !(read8_ext m1 m2) by exact H. reflexivity.
Qed.

Lemma read32_ext (m1 m2 : Memory) (a : Z) :
  mem_eq m1 m2 -> read32 m1 a = read32 m2 a.
Proof.
  intros H. unfold read32. rewrite !(read8_ext m1 m2) by exact H. reflexivity.
Qed.

Lemma strcmp_eq_ext (m1 m2 : Memory) (s : string) :
  mem_eq m1 m2 -> forall p, strcmp_eq m1 s p = strcmp_eq m2 s p.
Proof.
  intros H. induction s as [| c s IH]; intros p; simpl.
  - rewrite (read8_ext m1 m2) by exact H. reflexivity.
  - rewrite (read8_ext m1 m2) by exact H. rewrite IH. reflexivity.
Qed.

Section SameView.
Variables r1 r2 : ElfReader.
Hypothesis Hview : same_view r1 r2.

Lemma same_view_mem : mem_eq (mem r1) (mem r2).
Proof. exact (proj1 Hview). Qed.

Lemma e_shnum_ext : e_shnum r1 = e_shnum r2.
Proof.
  destruct Hview as (Hm & _ & Hh & _). unfold e_shnum, Ehdr.e_shnum.
  rewrite Hh. apply read16_ext. exact Hm.
Qed.

Lemma e_phnum_ext : e_phnum r1 = e_phnum r2.
Proof.
  destruct Hview as (Hm & _ & Hh & _). unfold e_phnum, Ehdr.e_phnum.
  rewrite Hh. apply read16_ext. exact Hm.
Qed.

Lemma e_shstrndx_ext : e_shstrndx r1 = e_shstrndx r2.
Proof.
  destruct Hview as (Hm & _ & Hh & _). unfold e_shstrndx, Ehdr.e_shstrndx.
  rewrite Hh. apply read16_ext. exact Hm.
Qed.

Lemma section_at_ext (i : Z) : section_at r1 i = section_at r2 i.
Proof.
  destruct Hview as (_ & _ & _ & _ & Hs). unfold section_at. now rewrite Hs.
Qed.

Lemma GetSectionDataPtr_ext (i : Z) :
  GetSectionDataPtr r1 i = GetSectionDataPtr r2 i.
Proof.
  unfold GetSectionDataPtr, GetPtr, Shdr.sh_type, Shdr.sh_offset.
  rewrite e_shnum_ext, section_at_ext.
  rewrite !(read32_ext (mem r1) (mem r2)) by exact same_view_mem.
  destruct Hview as (_ & Hb & _). rewrite Hb. reflexivity.
Qed.

Lemma GetSectionName_ext (i : Z) : GetSectionName r1 i = GetSectionName r2 i.
Proof.
  unfold GetSectionName, Shdr.sh_type, Shdr.sh_name.
  rewrite e_shstrndx_ext, section_at_ext, GetSectionDataPtr_ext.
  rewrite !(read32_ext (mem r1) (mem r2)) by exact same_view_mem.
  reflexivity.
Qed.

Lemma section_matches_ext (name : string) (i : Z) :
  section_matches r1 name i = section_matches r2 name i.
Proof.
  unfold section_matches. rewrite GetSectionName_ext.
  rewrite (strcmp_eq_ext (mem r1) (mem r2)) by exact same_view_mem.
  reflexivity.
Qed.

Lemma GetSectionByName_ext (name : string) (firstSection : Z) :
  GetSectionByName r1 name firstSection = GetSectionByName r2 name firstSection.
Proof.
  unfold GetSectionByName. rewrite e_shnum_ext.
  generalize (Z.to_nat (e_shnum r2 - firstSection)). intros fuel.
  revert firstSection. induction fuel as [| fuel IH]; intros i; simpl.
  - reflexivity.
  - rewrite section_matches_ext, IH. reflexivity.
Qed.

Lemma symbol_event_ext (symtab stringBase sym : Z) :
  symbol_event r1 symtab stringBase sym = symbol_event r2 symtab stringBase sym.
Proof.
  unfold symbol_event, Sym.st_size, Sym.st_info, Sym.st_name, Sym.st_value.
  rewrite !(read32_ext (mem r1) (mem r2)) by exact same_view_mem.
  rewrite !(read8_ext (mem r1) (mem r2)) by exact same_view_mem.
  reflexivity.
Qed.

Lemma LoadSymbols_loop_ext (symtab stringBase : Z) (fuel : nat) :
  forall sym hasSymbols,
    LoadSymbols_loop r1 symtab stringBase fuel sym hasSymbols
    = LoadSymbols_loop r2 symtab stringBase fuel sym hasSymbols.
Proof.
  induction fuel as [| fuel IH]; intros sym hasSymbols; simpl.
  - reflexivity.
  - unfold Sym.st_size.
    rewrite !(read32_ext (mem r1) (mem r2)) by exact same_view_mem.
    rewrite !IH, symbol_event_ext. reflexivity.
Qed.

Lemma LoadSymbols_ext : LoadSymbols r1 = LoadSymbols r2.
Proof.
  unfold LoadSymbols, Shdr.sh_link, Shdr.sh_size.
  rewrite GetSectionByName_ext.
  destruct (negb (GetSectionByName r2 ".symtab" 0 =? -1)); [| reflexivity].
  rewrite section_at_ext.
  rewrite !(read32_ext (mem r1) (mem r2)) by exact same_view_mem.
  rewrite !GetSectionDataPtr_ext. apply LoadSymbols_loop_ext.
Qed.

End SameView.

Lemma constructed_same_view (m1 m2 : Memory) (ptr : Z) :
  mem_eq m1 m2 -> same_view (constructed m1 ptr) (constructed m2 ptr).
Proof.
  intros H. unfold same_view, constructed, ElfReader_ctor.
  cbn [fst mem base header segments sections].
  unfold Ehdr.e_phoff, Ehdr.e_shoff.
  rewrite !(read32_ext m1 m2) by exact H.
  repeat split; try reflexivity. exact H.
Qed.

(** C8.  Construction is a function of the bytes: two constructions over
    memories with the same contents give the same section and segment
    counts, the same section names (the same name pointers, matching the
    same strings) and the same list of reported symbols; they also leave the
    same entry point. *)
Theorem construction_deterministic (m1 m2 : Memory) (ptr : Z)
    (Hmem : mem_eq m1 m2) :
  GetNumSections (constructed m1 ptr) = GetNumSections (constructed m2 ptr)
  /\ GetNumSegments (constructed m1 ptr) = GetNumSegments (constructed m2 ptr)
  /\ (forall i,
        GetSectionName (constructed m1 ptr) i
        = GetSectionName (constructed m2 ptr) i)
  /\ (forall name i,
        section_matches (constructed m1 ptr) name i
        = section_matches (constructed m2 ptr) name i)
  /\ (forall name firstSection,
        GetSectionByName (constructed m1 ptr) name firstSection
        = GetSectionByName (constructed m2 ptr) name firstSection)
  /\ snd (ElfReader_ctor m1 ptr) = snd (ElfReader_ctor m2 ptr)
  /\ GetEntryPoint (constructed m1 ptr) = GetEntryPoint (constructed m2 ptr).
Proof.
  pose proof (constructed_same_view m1 m2 ptr Hmem) as V.
  split; [apply e_shnum_ext; exact V |].
  split; [apply e_phnum_ext; exact V |].
  split; [intros i; apply GetSectionName_ext; exact V |].
  split; [intros name i; apply section_matches_ext; exact V |].
  split; [intros name i; apply GetSectionByName_ext; exact V |].
  split.
  - unfold ElfReader_ctor. cbn [snd]. f_equal.
    apply (LoadSymbols_ext _ _ V).
  - unfold GetEntryPoint, constructed, ElfReader_ctor. cbn [fst entryPoint].
    apply read32_ext. exact Hmem.
Qed.

(** C8 on two memories that hold the relocatable sample, the second one
    given through a shifted lookup. *)
Lemma construction_deterministic_witness :
  GetNumSections
    (constructed (Sample.memory_of Sample.buffer Sample.dyn_image)
       Sample.buffer)
  = GetNumSections
      (constructed
         (fun a => Sample.memory_of (Sample.buffer - 1) (0 :: Sample.dyn_image) a)
         Sample.buffer)
  /\ snd (ElfReader_ctor (Sample.memory_of Sample.buffer Sample.dyn_image)
            Sample.buffer)
     = snd (ElfReader_ctor
              (fun a =>
                 Sample.memory_of (Sample.buffer - 1) (0 :: Sample.dyn_image) a)
              Sample.buffer).
Proof.
  assert (H : mem_eq (Sample.memory_of Sample.buffer Sample.dyn_image)
                (fun a =>
                   Sample.memory_of (Sample.buffer - 1)
                     (0 :: Sample.dyn_image) a)).
  { intros a. unfold Sample.memory_of.
    change (length (0 :: Sample.dyn_image)) with (S (length Sample.dyn_image)).
    destruct (Z.leb_spec Sample.buffer a) as [L | L].
    - destruct (Z.leb_spec (Sample.buffer - 1) a); [| lia].
      replace (a <? Sample.buffer - 1 + Z.of_nat (S (length Sample.dyn_image)))
        with (a <? Sample.buffer + Z.of_nat (length Sample.dyn_image))
        by (apply eq_true_iff_eq; rewrite !Z.ltb_lt; lia).
      replace (Z.to_nat (a - (Sample.buffer - 1)))
        with (S (Z.to_nat (a - Sample.buffer))) by lia.
      reflexivity.
    - cbn [andb].
      destruct (Z.leb_spec (Sample.buffer - 1) a); [| reflexivity].
      assert (a = Sample.buffer - 1) as -> by lia.
      vm_compute. reflexivity. }
  destruct (construction_deterministic _ _ Sample.buffer H)
    as (A & _ & _ & _ & _ & B & _).
  split; [exact A | exact B].
Defined.

(** * Further properties of the reader and of the loader *)

(** ** Word reads and sizes *)

Lemma int_of_u32_range (z : Z) :
  0 <= z < 2 ^ 32 -> - 2 ^ 31 <= int_of_u32 z < 2 ^ 31.
Proof.
  intros H. destruct (int_of_u32_cases z H) as [[H1 E] | [H1 E]]; rewrite E;
    change (2 ^ 31) with 2147483648 in *; change (2 ^ 32) with 4294967296 in *;
    lia.
Qed.

Lemma Read32_floor (r : ElfReader) (off : Z) :
  Read32 r off = read32 (mem r) (base r + 4 * (off / 4)).
Proof.
  unfold Read32. rewrite Z.shiftr_div_pow2 by lia. reflexivity.
Qed.

(** X1.  [Read32] reads the aligned 32-bit word that holds byte offset
    [off]: the two low bits of [off] are dropped.  The 32-bit header fields
    come back through it at their offsets, and the word at offset 16 packs
    [e_type] below [e_machine]. *)
Theorem Read32_aligned_word (m : Memory) (ptr : Z) :
  (forall off j,
     0 <= j < 4 ->
     Read32 (constructed m ptr) (4 * off + j)
     = read32 m (ptr + 4 * off))
  /\ Read32 (constructed m ptr) 24 = GetEntryPoint (constructed m ptr)
  /\ Read32 (constructed m ptr) 36 = GetFlags (constructed m ptr)
  /\ Read32 (constructed m ptr) 16
     = GetType (constructed m ptr) + 65536 * GetMachine (constructed m ptr).
Proof.
  split; [| split; [| split]].
  - intros off j Hj. rewrite Read32_floor.
    replace ((4 * off + j) / 4) with off; [reflexivity |].
    apply Z.div_unique with (r := j); lia.
  - reflexivity.
  - reflexivity.
  - rewrite Read32_floor.
    unfold GetType, GetMachine, e_type, Ehdr.e_type, Ehdr.e_machine,
      constructed, ElfReader_ctor.
    cbn [fst mem base header].
    change (16 / 4) with 4. unfold read32, read16.
    replace (ptr + 4 * 4) with (ptr + 16) by lia.
    replace (ptr + 16 + 2) with (ptr + 18) by lia.
    replace (ptr + 16 + 3) with (ptr + 18 + 1) by lia.
    lia.
Qed.

(** X1 on the relocatable sample: type 3, machine 40, read at the offsets 16
    to 19. *)
Example Read32_samples :
  map (Read32 Sample.dyn_reader) [16; 17; 18; 19; 24]
  = [3 + 65536 * 40; 3 + 65536 * 40; 3 + 65536 * 40; 3 + 65536 * 40; 32768].
Proof. vm_compute. reflexivity. Qed.

(** X2.  [GetSectionSize] hands the [u32] field [sh_size] out as an [int]:
    the 32 bits are kept, so the result lies in [-2^31, 2^31) and is negative
    exactly for the sections whose size is [2^31] or more. *)
Theorem GetSectionSize_int (r : ElfReader) (section : Z) :
  u32_of_int (GetSectionSize r section)
  = Shdr.sh_size (mem r) (section_at r section)
  /\ - 2 ^ 31 <= GetSectionSize r section < 2 ^ 31
  /\ (GetSectionSize r section < 0
      <-> 2 ^ 31 <= Shdr.sh_size (mem r) (section_at r section))
  /\ (0 <= GetSectionSize r section ->
      GetSectionSize r section = Shdr.sh_size (mem r) (section_at r section)).
Proof.
  unfold GetSectionSize.
  pose proof (read32_range (mem r) (section_at r section + 20)) as H.
  fold (Shdr.sh_size (mem r) (section_at r section)) in H.
  split; [apply u32_of_int_of_u32; exact H |].
  split; [apply int_of_u32_range; exact H |].
  destruct (int_of_u32_cases _ H) as [[H1 E] | [H1 E]]; rewrite E;
    change (2 ^ 31) with 2147483648 in *; change (2 ^ 32) with 4294967296 in *;
    split; lia.
Qed.

(** X2 on a section of [0x90000000] bytes. *)
Example GetSectionSize_samples :
  Shdr.sh_size (mem Patched.big_section_reader)
    (section_at Patched.big_section_reader 1) = 2415919104
  /\ GetSectionSize Patched.big_section_reader 1 = -1879048192
  /\ GetSectionSize Patched.big_section_reader 2 = 38.
Proof. vm_compute. repeat split; reflexivity. Qed.

(** X3.  The data pointers stay within [2^31] bytes of [base]: whatever the
    headers say, [GetSectionDataPtr] returns [nullptr] or an address in
    [base - 2^31, base + 2^31), and so does [GetSegmentPtr]; the two tables
    themselves are placed by an unsigned offset, anywhere in
    [base, base + 2^32). *)
Theorem data_pointers_near_base (m : Memory) (ptr index : Z) :
  (GetSectionDataPtr (constructed m ptr) index = nullptr
   \/ ptr - 2 ^ 31 <= GetSectionDataPtr (constructed m ptr) index < ptr + 2 ^ 31)
  /\ ptr - 2 ^ 31 <= GetSegmentPtr (constructed m ptr) index < ptr + 2 ^ 31
  /\ ptr <= segments (constructed m ptr) < ptr + 2 ^ 32
  /\ ptr <= sections (constructed m ptr) < ptr + 2 ^ 32.
Proof.
  assert (Hb : base (constructed m ptr) = ptr) by reflexivity.
  split; [| split; [| split]].
  - unfold GetSectionDataPtr.
    destruct ((index <? 0) || (index >=? e_shnum (constructed m ptr)));
      [left; reflexivity |].
    destruct (negb _); [| left; reflexivity].
    right. unfold GetPtr. rewrite Hb.
    pose proof (int_of_u32_range _
                  (read32_range (mem (constructed m ptr))
                     (section_at (constructed m ptr) index + 16))) as H.
    unfold Shdr.sh_offset. lia.
  - unfold GetSegmentPtr, GetPtr. rewrite Hb.
    pose proof (int_of_u32_range _
                  (read32_range (mem (constructed m ptr))
                     (segment_at (constructed m ptr) index + 4))) as H.
    unfold Phdr.p_offset. lia.
  - cbn [constructed ElfReader_ctor fst segments].
    pose proof (read32_range m (ptr + 28)). unfold Ehdr.e_phoff. lia.
  - cbn [constructed ElfReader_ctor fst sections].
    pose proof (read32_range m (ptr + 32)). unfold Ehdr.e_shoff. lia.
Qed.

(** ** Names *)

Lemma section_matches_no_name (r : ElfReader) (name : string) (i : Z) :
  GetSectionName r i = nullptr -> section_matches r name i = false.
Proof. intros H. unfold section_matches. rewrite H. reflexivity. Qed.

Lemma GetSectionName_no_strtab (r : ElfReader) (i : Z) :
  GetSectionDataPtr r (e_shstrndx r) = nullptr -> GetSectionName r i = nullptr.
Proof.
  intros H. unfold GetSectionName. rewrite H.
  destruct (_ =? SHT_NULL); reflexivity.
Qed.

(** X4.  When the string-table index [e_shstrndx] is not below [e_shnum], or
    names a section of type NOBITS, no section has a name: [GetSectionName]
    is [nullptr] for every index, [GetSectionByName] finds nothing whatever
    the name and the start, and [LoadSymbols] returns [false] without a
    report. *)
Theorem no_string_table_no_names (r : ElfReader)
    (H : e_shnum r <= e_shstrndx r
         \/ Shdr.sh_type (mem r) (section_at r (e_shstrndx r)) = SHT_NOBITS) :
  (forall i, GetSectionName r i = nullptr)
  /\ (forall name firstSection, GetSectionByName r name firstSection = -1)
  /\ LoadSymbols r = (false, []).
Proof.
  assert (N : GetSectionDataPtr r (e_shstrndx r) = nullptr).
  { destruct H as [H | H].
    - apply GetSectionDataPtr_out_of_range. right. exact H.
    - unfold GetSectionDataPtr. rewrite H.
      destruct ((e_shstrndx r <? 0) || (e_shstrndx r >=? e_shnum r));
        reflexivity. }
  assert (A : forall name firstSection, GetSectionByName r name firstSection = -1).
  { intros name firstSection. apply GetSectionByName_none. intros j _.
    apply section_matches_no_name, GetSectionName_no_strtab, N. }
  split; [intros i; apply GetSectionName_no_strtab, N |].
  split; [exact A |].
  apply LoadSymbols_not_found, A.
Qed.

(** X4 on the relocatable sample with [e_shstrndx = 9]: the symbol table is
    still in the image and is not found. *)
Lemma no_string_table_no_names_witness :
  GetSectionByName Patched.no_strtab_reader ".symtab" 0 = -1
  /\ LoadSymbols Patched.no_strtab_reader = (false, [])
  /\ GetSectionByName Sample.dyn_reader ".symtab" 0 = 3.
Proof.
  assert (H : e_shnum Patched.no_strtab_reader
              <= e_shstrndx Patched.no_strtab_reader
              \/ Shdr.sh_type (mem Patched.no_strtab_reader)
                   (section_at Patched.no_strtab_reader
                      (e_shstrndx Patched.no_strtab_reader)) = SHT_NOBITS).
  { left. vm_compute. discriminate. }
  destruct (no_string_table_no_names _ H) as (_ & A & B).
  split; [apply A |]. split; [exact B |]. vm_compute. reflexivity.
Defined.

(** X5.  A scan that starts at a non-negative index returns -1 exactly when
    no section from there to [e_shnum - 1] matches, and otherwise an index of
    the table at or after the start; so -1 is never the index of a match. *)
Theorem GetSectionByName_not_found_iff (r : ElfReader) (name : string)
    (firstSection : Z) (H : 0 <= firstSection) :
  (GetSectionByName r name firstSection = -1
   <-> forall j, firstSection <= j < e_shnum r ->
                 section_matches r name j = false)
  /\ (GetSectionByName r name firstSection <> -1 ->
      firstSection <= GetSectionByName r name firstSection < e_shnum r
      /\ GetSectionByName r name firstSection < 65535).
Proof.
  pose proof (e_shnum_range r) as Hn.
  destruct (GetSectionByName_scan r name firstSection)
    as [[Hr [Hm Hb]] | [Hr Hno]].
  - split.
    + split; [intros E; lia |].
      intros Hno. rewrite Hno in Hm by lia. discriminate.
    + intros _. lia.
  - split.
    + split; [intros _; exact Hno | intros _; exact Hr].
    + intros E. contradiction.
Qed.

(** X5 on the relocatable sample; a scan that starts below 0 is outside the
    property. *)
Lemma GetSectionByName_not_found_iff_witness :
  (GetSectionByName Sample.dyn_reader ".data" 0 = -1
   <-> forall j, 0 <= j < e_shnum Sample.dyn_reader ->
                 section_matches Sample.dyn_reader ".data" j = false)
  /\ (GetSectionByName Sample.dyn_reader ".data" 0 <> -1 ->
      0 <= GetSectionByName Sample.dyn_reader ".data" 0
        < e_shnum Sample.dyn_reader
      /\ GetSectionByName Sample.dyn_reader ".data" 0 < 65535).
Proof.
  apply (GetSectionByName_not_found_iff Sample.dyn_reader ".data" 0).
  apply Z.le_refl.
Defined.

(** X6.  Restarting a scan: from any start between the first start and the
    match the same section is found, a scan that found nothing finds nothing
    from any later start, and a start at or past [e_shnum] finds nothing. *)
Theorem GetSectionByName_restart (r : ElfReader) (name : string)
    (firstSection later : Z) (H : firstSection <= later) :
  (GetSectionByName r name firstSection <> -1 ->
   later <= GetSectionByName r name firstSection ->
   GetSectionByName r name later = GetSectionByName r name firstSection)
  /\ (0 <= firstSection ->
      GetSectionByName r name firstSection = -1 ->
      GetSectionByName r name later = -1)
  /\ (e_shnum r <= later -> GetSectionByName r name later = -1).
Proof.
  split; [| split].
  - intros Hf Hl.
    destruct (GetSectionByName_scan r name firstSection)
      as [[Hr [Hm Hb]] | [Hr _]]; [| contradiction].
    apply GetSectionByName_first; [lia | exact Hm |].
    intros j Hj. apply Hb. lia.
  - intros H0 Hn.
    destruct (GetSectionByName_scan r name firstSection)
      as [[Hr _] | [_ Hno]]; [lia |].
    apply GetSectionByName_none. intros j Hj. apply Hno. lia.
  - intros Hl. apply GetSectionByName_none. intros j Hj. lia.
Qed.

(** X6 on the relocatable sample: [.symtab] is section 3. *)
Lemma GetSectionByName_restart_witness :
  GetSectionByName Sample.dyn_reader ".symtab" 2 = 3
  /\ GetSectionByName Sample.dyn_reader ".symtab" 6 = -1.
Proof.
  destruct (GetSectionByName_restart Sample.dyn_reader ".symtab" 0 2)
    as (A & _ & _); [vm_compute; discriminate |].
  destruct (GetSectionByName_restart Sample.dyn_reader ".symtab" 0 6)
    as (_ & _ & C); [vm_compute; discriminate |].
  split.
  - rewrite A; [vm_compute; reflexivity | vm_compute; discriminate
               | vm_compute; discriminate].
  - apply C. vm_compute. discriminate.
Defined.

Lemma cstring_at_unique (m : Memory) (l1 : list Z) :
  forall p l2, cstring_at m p l1 -> cstring_at m p l2 -> l1 = l2.
Proof.
  induction l1 as [| c l1 IH]; intros p [| d l2]; simpl.
  - reflexivity.
  - intros H0 (Hd & Hr & _). congruence.
  - intros (Hc & Hr & _) H0. congruence.
  - intros (Hc & Hr & H1) (Hd & Hr' & H2). f_equal.
    + congruence.
    + apply (IH (p + 1)); assumption.
Qed.

Lemma section_matches_c_str (r : ElfReader) (name1 name2 : string) (i : Z) :
  c_str name1 = c_str name2 ->
  section_matches r name1 i = section_matches r name2 i.
Proof.
  intros E. unfold section_matches. f_equal.
  apply eq_true_iff_eq. rewrite !strcmp_eq_cstring, E. tauto.
Qed.

(** X7.  Names are compared whole, as C strings: two names that match the
    same section are the same up to their first terminator (a prefix or an
    extension of a section's name does not match it), and names that are the
    same up to their first terminator find the same section. *)
Theorem section_name_exact (r : ElfReader) (name1 name2 : string) (i : Z)
    (H1 : section_matches r name1 i = true)
    (H2 : section_matches r name2 i = true) :
  c_str name1 = c_str name2
  /\ forall firstSection,
       GetSectionByName r name1 firstSection
       = GetSectionByName r name2 firstSection.
Proof.
  assert (E : c_str name1 = c_str name2).
  { unfold section_matches in H1, H2.
    apply andb_true_iff in H1. destruct H1 as [_ H1].
    apply andb_true_iff in H2. destruct H2 as [_ H2].
    apply strcmp_eq_cstring in H1. apply strcmp_eq_cstring in H2.
    exact (cstring_at_unique _ _ _ _ H1 H2). }
  split; [exact E |].
  intros firstSection. unfold GetSectionByName.
  generalize (Z.to_nat (e_shnum r - firstSection)). intros fuel.
  revert firstSection. induction fuel as [| fuel IH]; intros k; simpl.
  - reflexivity.
  - rewrite (section_matches_c_str r name1 name2 k E), IH. reflexivity.
Qed.

(** X7 on the [.text] section of the relocatable sample, matched by [.text]
    and by [.text] followed by a terminator and more characters; [.tex] and
    [.text2] are not found. *)
Lemma section_name_exact_witness :
  c_str ".text" = c_str (".text" ++ String zero "junk")
  /\ GetSectionByName Sample.dyn_reader ".text" 0
     = GetSectionByName Sample.dyn_reader (".text" ++ String zero "junk") 0
  /\ GetSectionByName Sample.dyn_reader ".tex" 0 = -1
  /\ GetSectionByName Sample.dyn_reader ".text2" 0 = -1.
Proof.
  assert (H1 : section_matches Sample.dyn_reader ".text" 1 = true)
    by (vm_compute; reflexivity).
  assert (H2 : section_matches Sample.dyn_reader
                 (".text" ++ String zero "junk") 1 = true)
    by (vm_compute; reflexivity).
  destruct (section_name_exact _ _ _ _ H1 H2) as [A B].
  split; [exact A |]. split; [apply B |].
  split; vm_compute; reflexivity.
Defined.

(** ** What is reported *)

Lemma u32_range (z : Z) : 0 <= u32 z < 2 ^ 32.
Proof. unfold u32. apply Z.mod_pos_bound. reflexivity. Qed.

Lemma reported_symbol_in_range (r : ElfReader) (sec k : Z) :
  has_size r (GetSectionDataPtr r sec) k = true ->
  report_in_range (reported_symbol r sec k).
Proof.
  intros H. unfold reported_symbol, report_in_range.
  unfold has_size in H. apply negb_true_iff, Z.eqb_neq in H.
  pose proof (read32_range (mem r)
                (GetSectionDataPtr r sec + sizeof_Elf32_Sym * k + 4)) as Hv.
  pose proof (read32_range (mem r)
                (GetSectionDataPtr r sec + sizeof_Elf32_Sym * k + 8)) as Hs.
  split; [exact Hv |]. split.
  - unfold Sym.st_size in *. lia.
  - change 15 with (Z.ones 4). rewrite Z.land_ones by lia.
    apply Z.mod_pos_bound. reflexivity.
Qed.

(** X8.  Every report of [LoadSymbols] carries a [u32] address, a size that
    is not zero and a type below 16, and there are at most [sh_size / 16] of
    them, fewer than [2^28], for the section the lookup of [.symtab]
    returns. *)
Theorem LoadSymbols_reports_in_range (r : ElfReader) :
  Forall report_in_range (snd (LoadSymbols r))
  /\ Z.of_nat (length (snd (LoadSymbols r)))
     <= Shdr.sh_size (mem r) (section_at r (GetSectionByName r ".symtab" 0))
        / sizeof_Elf32_Sym
  /\ Z.of_nat (length (snd (LoadSymbols r))) < 2 ^ 28.
Proof.
  rewrite LoadSymbols_expected. cbn [snd]. unfold expected_symbols.
  pose proof (read32_range (mem r)
                (section_at r (GetSectionByName r ".symtab" 0) + 20)) as Hs.
  fold (Shdr.sh_size (mem r) (section_at r (GetSectionByName r ".symtab" 0)))
    in Hs.
  assert (Hd : 0 <= Shdr.sh_size (mem r)
                      (section_at r (GetSectionByName r ".symtab" 0))
                    / sizeof_Elf32_Sym < 2 ^ 28).
  { unfold sizeof_Elf32_Sym. change (2 ^ 32) with 4294967296 in Hs.
    change (2 ^ 28) with 268435456. split.
    - apply Z.div_pos; lia.
    - apply Z.div_lt_upper_bound; lia. }
  destruct (GetSectionByName r ".symtab" 0 =? -1).
  - split; [constructor |]. simpl. lia.
  - assert (L : Z.of_nat (length (symtab_symbols r
                                    (GetSectionByName r ".symtab" 0)))
                <= Shdr.sh_size (mem r)
                     (section_at r (GetSectionByName r ".symtab" 0))
                   / sizeof_Elf32_Sym).
    { unfold symtab_symbols, symtab_entries. rewrite length_map.
      pose proof (filter_length_le
                    (has_size r (GetSectionDataPtr r
                                   (GetSectionByName r ".symtab" 0)))
                    (Zseq 0 (Z.to_nat
                       (Shdr.sh_size (mem r)
                          (section_at r (GetSectionByName r ".symtab" 0))
                        / sizeof_Elf32_Sym)))) as F.
      rewrite Zseq_length in F. lia. }
    split; [| lia].
    unfold symtab_symbols. apply Forall_forall. intros e He.
    apply in_map_iff in He. destruct He as [k [<- Hk]].
    apply filter_In in Hk. apply reported_symbol_in_range, Hk.
Qed.

(** ** Calls of [LoadInto], one after another *)

Lemma LoadInto_reader_fields (r : ElfReader) (vaddr : Z) :
  LoadInto_reader r vaddr =
    mkElfReader (mem r) (base r) (header r) (segments r) (sections r)
      (relocate (LoadInto_reader r vaddr))
      (entryPoint (LoadInto_reader r vaddr)).
Proof. reflexivity. Qed.

Lemma LoadInto_times_fields (n : nat) (r : ElfReader) (vaddr : Z) :
  LoadInto_times n r vaddr =
    mkElfReader (mem r) (base r) (header r) (segments r) (sections r)
      (relocate (LoadInto_times n r vaddr))
      (entryPoint (LoadInto_times n r vaddr)).
Proof.
  induction n as [| n IH].
  - destruct r. reflexivity.
  - cbn [LoadInto_times]. rewrite LoadInto_reader_fields at 1.
    rewrite IH at 1 2 3 4 5. reflexivity.
Qed.

Lemma LoadInto_each_fields (vaddrs : list Z) :
  forall r,
    LoadInto_each vaddrs r =
      mkElfReader (mem r) (base r) (header r) (segments r) (sections r)
        (relocate (LoadInto_each vaddrs r))
        (entryPoint (LoadInto_each vaddrs r)).
Proof.
  induction vaddrs as [| v vs IH]; intros r.
  - destruct r. reflexivity.
  - cbn [LoadInto_each]. rewrite IH at 1. reflexivity.
Qed.

(** X9.  The local array [segment_addr] is never read before it is written:
    whatever it holds when [LoadInto] starts, the result, the reader and the
    calls are the same. *)
Theorem LoadInto_ignores_array_contents (a0 a1 : Z -> Z) (r : ElfReader)
    (vaddr : Z) :
  LoadInto_from a0 r vaddr = LoadInto_from a1 r vaddr.
Proof.
  unfold LoadInto_from. f_equal. rewrite !LoadInto_loop_events. reflexivity.
Qed.

(** X10.  A call of [LoadInto] changes [relocate] and [entryPoint] and
    nothing else, so every further call makes the same stores and copies
    again, to the same addresses, however many calls came before, and the
    symbol lookup gives what it gave at construction. *)
Theorem LoadInto_repeats_copies (n : nat) (r : ElfReader) (vaddr vaddr' : Z) :
  LoadInto_trace (LoadInto_times n r vaddr) vaddr' = LoadInto_trace r vaddr'
  /\ LoadSymbols (LoadInto_times n r vaddr) = LoadSymbols r
  /\ (forall name firstSection,
        GetSectionByName (LoadInto_times n r vaddr) name firstSection
        = GetSectionByName r name firstSection).
Proof.
  assert (V : same_view (LoadInto_times n r vaddr) r).
  { rewrite LoadInto_times_fields. unfold same_view. cbn.
    repeat split; try reflexivity. }
  split; [| split].
  - rewrite !LoadInto_trace_events, LoadInto_times_fields.
    generalize (relocate (LoadInto_times n r vaddr)).
    generalize (entryPoint (LoadInto_times n r vaddr)).
    intros ep rel. destruct r. reflexivity.
  - apply LoadSymbols_ext. exact V.
  - intros name firstSection. apply GetSectionByName_ext. exact V.
Qed.

(** X10 on the relocatable sample: after two calls the entry point has moved
    twice and the third call copies to where the first one did. *)
Example LoadInto_repeats_copies_sample :
  GetEntryPoint (LoadInto_times 2 Sample.dyn_reader 1048576)
  = 32768 + 2 * 1048576
  /\ filter is_memcpy
       (LoadInto_trace (LoadInto_times 2 Sample.dyn_reader 1048576) 1048576)
     = [memcpy_to_Memory (1048576 + 4096) (Sample.buffer + 148) 4;
        memcpy_to_Memory (1048576 + 12288) (Sample.buffer + 148) 0].
Proof. vm_compute. split; reflexivity. Qed.

(** X11.  For an image of type [ET_EXEC] the base address plays no part: the
    calls are the same for every [vaddr], every target address is [p_vaddr]
    itself, the entry point is left as it is, and a second call leaves the
    reader as the first one left it. *)
Theorem LoadInto_exec_ignores_base (r : ElfReader) (vaddr vaddr' : Z)
    (H : e_type r = ET_EXEC) :
  LoadInto_trace r vaddr = LoadInto_trace r vaddr'
  /\ (forall i, target_addr r vaddr i = Phdr.p_vaddr (mem r) (segment_at r i))
  /\ GetEntryPoint (LoadInto_reader r vaddr) = GetEntryPoint r
  /\ LoadInto_reader (LoadInto_reader r vaddr) vaddr' = LoadInto_reader r vaddr.
Proof.
  assert (T : forall v i,
            target_addr r v i = Phdr.p_vaddr (mem r) (segment_at r i)).
  { intros v i. unfold target_addr, base_addr_of. rewrite H. cbn.
    apply Z.mod_small. apply read32_range. }
  split; [| split; [exact (T vaddr) | split]].
  - rewrite !LoadInto_trace_events.
    apply flat_map_ext. intros i.
    unfold segment_events, segment_store, segment_copy, segment_copy_from.
    rewrite (T vaddr), (T vaddr'). reflexivity.
  - unfold GetEntryPoint, LoadInto_reader, LoadInto, LoadInto_from.
    cbn [fst snd entryPoint]. rewrite H. reflexivity.
  - unfold LoadInto_reader, LoadInto, LoadInto_from. cbn [fst snd].
    unfold e_type in *. cbn [mem header entryPoint]. rewrite H. reflexivity.
Qed.

(** X11 on the executable sample. *)
Lemma LoadInto_exec_ignores_base_witness :
  LoadInto_trace Sample.exec_reader 1048576 = LoadInto_trace Sample.exec_reader 0
  /\ GetEntryPoint (LoadInto_reader Sample.exec_reader 1048576) = 32768.
Proof.
  assert (H : e_type Sample.exec_reader = ET_EXEC) by (vm_compute; reflexivity).
  destruct (LoadInto_exec_ignores_base Sample.exec_reader 1048576 0 H)
    as (A & _ & B & _).
  split; [exact A | exact B].
Defined.

Lemma LoadInto_each_entry_sum (vaddrs : list Z) :
  forall r,
    e_type r <> ET_EXEC ->
    0 <= entryPoint r < 2 ^ 32 ->
    entryPoint (LoadInto_each vaddrs r)
    = u32 (entryPoint r + fold_right Z.add 0 vaddrs).
Proof.
  induction vaddrs as [| v vs IH]; intros r Hty Hr.
  - simpl. rewrite Z.add_0_r. unfold u32. symmetry. apply Z.mod_small, Hr.
  - cbn [LoadInto_each fold_right].
    assert (E : entryPoint (LoadInto_reader r v) = u32 (entryPoint r + v)).
    { unfold LoadInto_reader, LoadInto, LoadInto_from. cbn [fst snd entryPoint].
      destruct (Z.eqb_spec (e_type r) ET_EXEC); [contradiction | reflexivity]. }
    rewrite IH.
    + rewrite E. unfold u32. rewrite Z.add_mod_idemp_l by lia.
      f_equal. lia.
    + exact Hty.
    + rewrite E. apply u32_range.
Qed.

Lemma sum_Permutation (l l' : list Z) :
  Permutation l l' -> fold_right Z.add 0 l = fold_right Z.add 0 l'.
Proof.
  induction 1; simpl; lia.
Qed.

(** X12.  For an image that is not of type [ET_EXEC] the base addresses of
    successive calls add up in the entry point: after calls with the bases
    [vaddrs] it is [e_entry] plus their sum, in [u32] arithmetic, in whatever
    order the calls were made. *)
Theorem LoadInto_bases_add_up (m : Memory) (ptr : Z) (vaddrs : list Z)
    (H : Ehdr.e_type m ptr <> ET_EXEC) :
  GetEntryPoint (LoadInto_each vaddrs (constructed m ptr))
  = u32 (Ehdr.e_entry m ptr + fold_right Z.add 0 vaddrs)
  /\ (forall vaddrs',
        Permutation vaddrs vaddrs' ->
        GetEntryPoint (LoadInto_each vaddrs' (constructed m ptr))
        = GetEntryPoint (LoadInto_each vaddrs (constructed m ptr))).
Proof.
  assert (A : forall vs,
            GetEntryPoint (LoadInto_each vs (constructed m ptr))
            = u32 (Ehdr.e_entry m ptr + fold_right Z.add 0 vs)).
  { intros vs. unfold GetEntryPoint. rewrite LoadInto_each_entry_sum.
    - reflexivity.
    - exact H.
    - apply read32_range. }
  split; [apply A |].
  intros vaddrs' P. rewrite !A, (sum_Permutation _ _ P). reflexivity.
Qed.

(** X12 on the relocatable sample, with the bases [0x100000] and [0x2000] in
    both orders. *)
Lemma LoadInto_bases_add_up_witness :
  GetEntryPoint (LoadInto_each [1048576; 8192] Sample.dyn_reader)
  = 32768 + 1048576 + 8192
  /\ GetEntryPoint (LoadInto_each [8192; 1048576] Sample.dyn_reader)
     = GetEntryPoint (LoadInto_each [1048576; 8192] Sample.dyn_reader).
Proof.
  assert (H : Ehdr.e_type (Sample.memory_of Sample.buffer Sample.dyn_image)
                Sample.buffer <> ET_EXEC)
    by (vm_compute; discriminate).
  destruct (LoadInto_bases_add_up _ _ [1048576; 8192] H) as [A B].
  split.
  - exact (eq_trans A eq_refl).
  - apply B. apply perm_swap.
Defined.

(** X13.  For an image that is not of type [ET_EXEC] the base address moves
    every target address, and nothing else: the calls for the base [vaddr]
    are the calls for the base 0 with each emulated address moved up by
    [vaddr], in [u32] arithmetic; sources and sizes are the same. *)
Theorem LoadInto_relocation_shifts (r : ElfReader) (vaddr : Z)
    (H : e_type r <> ET_EXEC) :
  LoadInto_trace r vaddr = map (shift_event vaddr) (LoadInto_trace r 0).
Proof.
  rewrite !LoadInto_trace_events.
  assert (T : forall i, target_addr r vaddr i
                        = u32 (target_addr r 0 i + vaddr)).
  { intros i. unfold target_addr, base_addr_of.
    destruct (Z.eqb_spec (e_type r) ET_EXEC); [contradiction |].
    unfold u32. rewrite Z.add_mod_idemp_l by lia. f_equal. lia. }
  induction (load_indices r) as [| i l IH]; [reflexivity |].
  cbn [flat_map map app segment_events]. rewrite IH.
  unfold segment_store, segment_copy, segment_copy_from. cbn [shift_event].
  rewrite T. reflexivity.
Qed.

(** X13 on the relocatable sample. *)
Lemma LoadInto_relocation_shifts_witness :
  LoadInto_trace Sample.dyn_reader 1048576
  = map (shift_event 1048576) (LoadInto_trace Sample.dyn_reader 0).
Proof.
  apply LoadInto_relocation_shifts. vm_compute. discriminate.
Defined.

(** X14.  The calls of [LoadInto] stay in range: a store is made at the
    index of a program header with a [u32] value, a copy has a [u32] target
    address, a [u32] size and a source within [2^31] bytes of [base], and
    there are at most [e_phnum] copies, hence fewer than 65536. *)
Theorem LoadInto_events_in_range (r : ElfReader) (vaddr : Z) :
  Forall (load_event_in_range r) (LoadInto_trace r vaddr)
  /\ Z.of_nat (length (filter is_memcpy (LoadInto_trace r vaddr))) <= e_phnum r
  /\ e_phnum r < 65536.
Proof.
  pose proof (e_phnum_range r) as Hn.
  split; [| split; [| lia]].
  - rewrite LoadInto_trace_events. apply Forall_forall. intros e He.
    apply in_flat_map in He. destruct He as [i [Hi He]].
    apply load_indices_In in Hi. destruct Hi as [Hi _].
    destruct He as [<- | [<- | []]]; simpl.
    + split; [exact Hi | apply u32_range].
    + split; [apply u32_range |]. split.
      * pose proof (int_of_u32_range _
                      (read32_range (mem r) (segment_at r i + 4))) as Ho.
        unfold Phdr.p_offset. lia.
      * apply read32_range.
  - rewrite LoadInto_copies, length_map. unfold load_indices.
    pose proof (filter_length_le (is_load r) (Zseq 0 (Z.to_nat (e_phnum r))))
      as F.
    rewrite Zseq_length in F. lia.
Qed.

(** ** The emulated memory after a load *)

Lemma Memory_apply_app (host : Memory) (t1 t2 : list event) (target : Memory) :
  Memory_apply host (t1 ++ t2) target
  = Memory_apply host t2 (Memory_apply host t1 target).
Proof. apply fold_left_app. Qed.

Lemma Memory_apply_segment (r : ElfReader) (vaddr i : Z) (target : Memory)
    (a : Z) :
  Memory_apply (mem r) (segment_events r vaddr i) target a
  = if in_segment_range r vaddr i a
    then mem r (GetSegmentPtr r i + (a - target_addr r vaddr i))
    else target a.
Proof. reflexivity. Qed.

Lemma Memory_apply_frame (r : ElfReader) (vaddr : Z) (l : list Z) (a : Z) :
  (forall i, In i l -> in_segment_range r vaddr i a = false) ->
  forall target,
    Memory_apply (mem r) (flat_map (segment_events r vaddr) l) target a
    = target a.
Proof.
  induction l as [| i l IH]; intros H target; [reflexivity |].
  cbn [flat_map]. rewrite Memory_apply_app, IH.
  - rewrite Memory_apply_segment, H; [reflexivity | left; reflexivity].
  - intros j Hj. apply H. right. exact Hj.
Qed.




(** X15.  With the emulated memory as a map from addresses to bytes, a load
    changes only the byte ranges [target, target + p_filesz) of the LOAD
    entries: every other address keeps its contents, the tail of a segment
    between [p_filesz] and [p_memsz] included (it is not cleared). *)
Theorem LoadInto_writes_only_file_bytes (r : ElfReader) (vaddr a : Z)
    (target : Memory)
    (H : forall i, 0 <= i < e_phnum r -> is_load r i = true ->
                   in_segment_range r vaddr i a = false) :
  Memory_apply (mem r) (LoadInto_trace r vaddr) target a = target a.
Proof.
  rewrite LoadInto_trace_events. apply Memory_apply_frame.
  intros i Hi. apply load_indices_In in Hi. destruct Hi as [Hi Hl].
  apply H; assumption.
Qed.

(** X15 on the executable sample, whose segment has [p_filesz = 4] and
    [p_memsz = 8]: the byte at [0x1004] is what it was. *)
Lemma LoadInto_writes_only_file_bytes_witness :
  Memory_apply (mem Sample.exec_reader) (LoadInto_trace Sample.exec_reader 0)
    (fun _ => x55) 4100
  = x55
  /\ Phdr.p_memsz (mem Sample.exec_reader) (segment_at Sample.exec_reader 0) = 8.
Proof.
  split; [| vm_compute; reflexivity].
  apply (LoadInto_writes_only_file_bytes Sample.exec_reader 0 4100).
  intros i Hi Hl.
  assert (E : e_phnum Sample.exec_reader = 1) by (vm_compute; reflexivity).
  rewrite E in Hi. assert (i = 0) as -> by lia.
  vm_compute. reflexivity.
Defined.



(** ** The loader *)

(** X17.  The error paths of [Load]: a loader marked as loaded gets
    [ErrorAlreadyLoaded] before the file is looked at, a file that cannot be
    opened gives [Error], and in both cases no call is made; [Success] is
    returned only for a loader that is not marked and a file that opens. *)
Theorem Load_status_cases (files : string -> option (list byte))
    (heap : Memory) (buffer : Z) (l : AppLoader_ELF) :
  (is_loaded l = true ->
   Load_status files heap buffer l = ErrorAlreadyLoaded
   /\ Load_calls files heap buffer l = [])
  /\ (is_loaded l = false -> files (filename l) = None ->
      Load_status files heap buffer l = Error
      /\ Load_calls files heap buffer l = [])
  /\ (Load_status files heap buffer l = Success ->
      is_loaded l = false /\ files (filename l) <> None)
  /\ (Load_status files heap buffer l <> Success ->
      Load_calls files heap buffer l = []).
Proof.
  unfold Load_status, Load_calls, AppLoader_ELF_Load.
  destruct (is_loaded l); cbn [fst snd].
  - split; [intros _; split; reflexivity |].
    split; [discriminate |].
    split; [discriminate | reflexivity].
  - destruct (files (filename l)) as [data |]; cbn [fst snd].
    + split; [discriminate |].
      split; [discriminate |].
      split; [intros _; split; [reflexivity | discriminate]
             | intros E; contradiction].
    + split; [discriminate |].
      split; [intros _ _; split; reflexivity |].
      split; [discriminate | reflexivity].
Qed.

(** X17 on the sample files: a name that does not open, and a loader that is
    marked as loaded. *)
Example Load_status_samples :
  Load_status Patched.files Patched.zero_heap Sample.buffer
    (AppLoader_ELF_ctor "missing.elf")
  = Error
  /\ Load_status Patched.files Patched.zero_heap Sample.buffer
       {| filename := "dyn.elf"; is_loaded := true |}
     = ErrorAlreadyLoaded
  /\ Load_calls Patched.files Patched.zero_heap Sample.buffer
       {| filename := "dyn.elf"; is_loaded := true |}
     = [].
Proof. vm_compute. repeat split; reflexivity. Qed.

(** X18.  A successful [Load] makes the calls of the construction of a reader
    over the bytes of the file, then those of [LoadInto] with the base
    [0x00100000], then one call of [Kernel::LoadExec], the last call of all;
    the entry point handed over is [e_entry] for an image of type [ET_EXEC]
    and [e_entry + 0x00100000] (in [u32] arithmetic) for any other type. *)
Theorem Load_calls_on_success (files : string -> option (list byte))
    (heap : Memory) (buffer : Z) (l : AppLoader_ELF) (data : list byte)
    (Hl : is_loaded l = false) (Hf : files (filename l) = Some data) :
  Load_calls files heap buffer l
  = map Reader_call
      (load_sequence
         (ReadBytes heap buffer data (u32 (Z.of_nat (length data))))
         buffer load_base)
    ++ [Kernel_LoadExec
          (if Ehdr.e_type
                (ReadBytes heap buffer data (u32 (Z.of_nat (length data))))
                buffer =? ET_EXEC
           then Ehdr.e_entry
                  (ReadBytes heap buffer data (u32 (Z.of_nat (length data))))
                  buffer
           else u32 (Ehdr.e_entry
                       (ReadBytes heap buffer data
                          (u32 (Z.of_nat (length data))))
                       buffer
                     + load_base))].
Proof.
  unfold Load_calls, AppLoader_ELF_Load. rewrite Hl, Hf.
  unfold ElfReader_ctor, LoadInto, LoadInto_from. cbn [fst snd].
  unfold load_sequence, LoadInto_trace, LoadInto, LoadInto_from, constructed,
    ElfReader_ctor, GetEntryPoint, e_type.
  cbn [fst snd mem header entryPoint].
  destruct (Ehdr.e_type _ buffer =? ET_EXEC); reflexivity.
Qed.

(** X18 on the relocatable sample file. *)
Lemma Load_calls_on_success_witness :
  Load_calls Patched.files Patched.zero_heap Sample.buffer
    (AppLoader_ELF_ctor "dyn.elf")
  = map Reader_call
      [Symbols_Add 4096 (Sample.buffer + 191) 4 2;
       Symbols_Add 8192 (Sample.buffer + 196) 8 1;
       segment_addr_set 0 (1048576 + 4096);
       memcpy_to_Memory (1048576 + 4096) (Sample.buffer + 148) 4;
       segment_addr_set 2 (1048576 + 12288);
       memcpy_to_Memory (1048576 + 12288) (Sample.buffer + 148) 0]
    ++ [Kernel_LoadExec (32768 + 1048576)].
Proof.
  rewrite (Load_calls_on_success Patched.files Patched.zero_heap Sample.buffer
             (AppLoader_ELF_ctor "dyn.elf")
             (map Sample.byte_of_Z Sample.dyn_image) eq_refl eq_refl).
  vm_compute. reflexivity.
Defined.

(** X19.  [Load] never marks the loader as loaded: the loader is the same
    after the call as before it.  So a loader built by the constructor never
    gets [ErrorAlreadyLoaded], and a further [Load] does again all that the
    first one did, the call of [Kernel::LoadExec] included. *)
Theorem Load_leaves_loader_unmarked (files : string -> option (list byte))
    (heap : Memory) (buffer : Z) (l : AppLoader_ELF) (name : string) :
  Load_loader files heap buffer l = l
  /\ AppLoader_ELF_Load files heap buffer (Load_loader files heap buffer l)
     = AppLoader_ELF_Load files heap buffer l
  /\ Load_status files heap buffer (AppLoader_ELF_ctor name)
     <> ErrorAlreadyLoaded
  /\ Load_status files heap buffer
       (Load_loader files heap buffer (AppLoader_ELF_ctor name))
     <> ErrorAlreadyLoaded.
Proof.
  assert (A : forall l0, Load_loader files heap buffer l0 = l0).
  { intros l0. unfold Load_loader, AppLoader_ELF_Load.
    destruct (is_loaded l0); [reflexivity |].
    destruct (files (filename l0)); reflexivity. }
  assert (B : Load_status files heap buffer (AppLoader_ELF_ctor name)
              <> ErrorAlreadyLoaded).
  { unfold Load_status, AppLoader_ELF_Load. cbn [is_loaded AppLoader_ELF_ctor].
    destruct (files _); discriminate. }
  split; [apply A |]. split; [rewrite A; reflexivity |].
  split; [exact B |]. rewrite A. exact B.
Qed.

(** * The sign conversion of file offsets *)

(** C5.  The code at the failing input.  The [.text] section of
    [Sample.far_reader] is section 1 of 6, of type PROGBITS, with
    [sh_offset = 2^31]; its four bytes of data lie inside the buffer of
    [2^31 + 4] bytes.  [GetSectionDataPtr] hands [sh_offset] to the [int]
    parameter of [GetPtr] and returns [base + sh_offset - 2^32], an address
    before the buffer that holds other bytes, where the constructor places
    the section table itself by the unsigned sum [base + e_shoff]. *)
Theorem GetSectionDataPtr_sign_conversion :
  e_shnum Sample.far_reader = 6
  /\ Shdr.sh_type (mem Sample.far_reader) (section_at Sample.far_reader 1)
     = SHT_PROGBITS
  /\ Shdr.sh_offset (mem Sample.far_reader) (section_at Sample.far_reader 1)
     = 2 ^ 31
  /\ in_buffer Sample.buffer Sample.far_size
       (base Sample.far_reader
        + Shdr.sh_offset (mem Sample.far_reader)
            (section_at Sample.far_reader 1)) 4
     = true
  /\ GetSectionDataPtr Sample.far_reader 1
     = base Sample.far_reader
       + Shdr.sh_offset (mem Sample.far_reader)
           (section_at Sample.far_reader 1)
       - 2 ^ 32
  /\ in_buffer Sample.buffer Sample.far_size
       (GetSectionDataPtr Sample.far_reader 1) 4
     = false
  /\ read32 (mem Sample.far_reader)
       (base Sample.far_reader
        + Shdr.sh_offset (mem Sample.far_reader)
            (section_at Sample.far_reader 1))
     = 4022250974
  /\ read32 (mem Sample.far_reader) (GetSectionDataPtr Sample.far_reader 1) = 0
  /\ sections Sample.far_reader
     = base Sample.far_reader
       + Ehdr.e_shoff (mem Sample.far_reader) (header Sample.far_reader).
Proof. vm_compute. repeat split; reflexivity. Qed.

(** C2.  The code at the failing input.  The only program header of
    [Sample.far_reader] is of type LOAD with [p_offset = 2^31] and
    [p_filesz = 4]; the four bytes DE AD BE EF lie there, inside the buffer.
    [LoadInto] makes the one write, of four bytes, to the target address
    [p_vaddr], and takes the bytes at [base + p_offset - 2^32], before the
    buffer: the target receives other bytes than those of the segment.  The
    defect is the one of C5, the [int] parameter of [GetPtr]. *)
Theorem LoadInto_copy_sign_conversion :
  e_phnum Sample.far_reader = 1
  /\ is_load Sample.far_reader 0 = true
  /\ Phdr.p_offset (mem Sample.far_reader) (segment_at Sample.far_reader 0)
     = 2 ^ 31
  /\ filter is_memcpy (LoadInto_trace Sample.far_reader 0)
     = [memcpy_to_Memory 4096
          (base Sample.far_reader
           + Phdr.p_offset (mem Sample.far_reader)
               (segment_at Sample.far_reader 0)
           - 2 ^ 32)
          4]
  /\ in_buffer Sample.buffer Sample.far_size
       (base Sample.far_reader
        + Phdr.p_offset (mem Sample.far_reader)
            (segment_at Sample.far_reader 0)) 4
     = true
  /\ in_buffer Sample.buffer Sample.far_size
       (GetSegmentPtr Sample.far_reader 0) 4
     = false
  /\ map (read8 (mem Sample.far_reader))
       [Sample.buffer + 2 ^ 31; Sample.buffer + 2 ^ 31 + 1;
        Sample.buffer + 2 ^ 31 + 2; Sample.buffer + 2 ^ 31 + 3]
     = [222; 173; 190; 239]
  /\ map (read8 (Memory_apply (mem Sample.far_reader)
                   (LoadInto_trace Sample.far_reader 0) (fun _ => x01)))
       [4096; 4097; 4098; 4099]
     = [0; 0; 0; 0]
  /\ segments Sample.far_reader
     = base Sample.far_reader
       + Ehdr.e_phoff (mem Sample.far_reader) (header Sample.far_reader).
Proof. vm_compute. repeat split; reflexivity. Qed.

(** * Loading with every access inside its object *)

Section CheckedProperties.
Variable size : Z.
Variable mapped : Z -> Z -> bool.

(** While the accesses stay inside their objects the loop makes the calls of
    the loop on the flat memory and runs to its end. *)
Lemma LoadInto_loop_checked_ok (r : ElfReader) (base_addr : Z) (fuel : nat) :
  forall i segment_addr,
    forallb (segment_accesses_ok_from size mapped r base_addr) (Zseq i fuel)
    = true ->
    LoadInto_loop_checked size mapped r base_addr fuel i segment_addr
    = (LoadInto_loop r base_addr fuel i segment_addr, true).
Proof.
  induction fuel as [| fuel IH]; intros i segment_addr H; [reflexivity |].
  cbn [Zseq forallb] in H. apply andb_true_iff in H. destruct H as [Hi H].
  unfold segment_accesses_ok_from, is_load in Hi.
  apply andb_true_iff in Hi. destruct Hi as [Hp Hi].
  cbn [LoadInto_loop_checked LoadInto_loop]. rewrite Hp. cbn [negb].
  destruct (Phdr.p_type (mem r) (segment_at r i) =? PT_LOAD).
  - cbn [negb orb] in Hi.
    apply andb_true_iff in Hi. destruct Hi as [Hi Hm].
    apply andb_true_iff in Hi. destruct Hi as [Hb Hs].
    rewrite Hb. cbn [negb].
    assert (E : array_set segment_addr i
                  (u32 (base_addr + Phdr.p_vaddr (mem r) (segment_at r i))) i
                = u32 (base_addr + Phdr.p_vaddr (mem r) (segment_at r i)))
      by (unfold array_set; rewrite Z.eqb_refl; reflexivity).
    rewrite !E, Hs, Hm. cbn [andb negb].
    rewrite (IH _ _ H). reflexivity.
  - apply IH. exact H.
Qed.


Lemma LoadInto_checked_ok (r : ElfReader) (vaddr : Z) :
  LoadInto_accesses_ok size mapped r vaddr = true ->
  LoadInto_checked size mapped r vaddr
  = Returned true (LoadInto_reader r vaddr) (LoadInto_trace r vaddr).
Proof.
  unfold LoadInto_accesses_ok. intros H.
  apply andb_true_iff in H. destruct H as [Hh Hl].
  unfold LoadInto_checked. rewrite Hh. cbn [negb].
  destruct r as [m b h sg sc rel ep].
  rewrite LoadInto_loop_checked_ok; [reflexivity |].
  unfold segment_accesses_ok, target_addr, base_addr_of in Hl.
  unfold segment_accesses_ok_from. cbn in Hl |- *.
  destruct (e_type _ =? ET_EXEC); exact Hl.
Qed.


End CheckedProperties.



(** C6 on the samples: the executable sample in its buffer of 441 bytes is
    loaded; the relocatable sample loaded at [0xFFFF0000] writes outside an
    emulated memory of [0x08000000] bytes; the image with 33 program headers
    stores outside [segment_addr]. *)
Example LoadInto_checked_samples :
  LoadInto_checked 441 Short.fcram_mapped Sample.exec_reader 0
  = Returned true (LoadInto_reader Sample.exec_reader 0)
      [segment_addr_set 0 4096; memcpy_to_Memory 4096 (Sample.buffer + 84) 4]
  /\ LoadInto_checked 505 Short.fcram_mapped Sample.dyn_reader 4294901760
     = Undefined [segment_addr_set 0 (4294901760 + 4096)]
  /\ LoadInto_checked 1465 Short.all_mapped Sample.wide_reader 0
     = Undefined [].
Proof.
  split; [| split; vm_compute; reflexivity].
  rewrite (LoadInto_checked_ok 441 Short.fcram_mapped Sample.exec_reader 0)
    by (vm_compute; reflexivity).
  f_equal.
Qed.

(** * The reports of a construction, against the image *)

Lemma Image_section_data (m : Memory) (ptr i : Z) :
  Image.section_data m ptr i = GetSectionDataPtr (constructed m ptr) i.
Proof.
  unfold Image.section_data, GetSectionDataPtr, GetPtr, Image.shnum, Image.shdr.
  change (e_shnum (constructed m ptr)) with (read16 m (ptr + 48)).
  change (base (constructed m ptr)) with ptr.
  change (Shdr.sh_type (mem (constructed m ptr))
            (section_at (constructed m ptr) i))
    with (read32 m (ptr + read32 m (ptr + 32) + 40 * i + 4)).
  change (Shdr.sh_offset (mem (constructed m ptr))
            (section_at (constructed m ptr) i))
    with (read32 m (ptr + read32 m (ptr + 32) + 40 * i + 16)).
  destruct (Z.leb_spec 0 i), (Z.ltb_spec i 0); try lia;
    destruct (Z.ltb_spec i (read16 m (ptr + 48))),
             (Z.geb_spec i (read16 m (ptr + 48))); try lia;
    cbn [andb orb]; reflexivity.
Qed.

Lemma Image_section_name (m : Memory) (ptr i : Z) :
  Image.section_name m ptr i = GetSectionName (constructed m ptr) i.
Proof.
  unfold Image.section_name, GetSectionName. rewrite Image_section_data.
  unfold Image.shstrndx, Image.shdr.
  change (e_shstrndx (constructed m ptr)) with (read16 m (ptr + 50)).
  change (Shdr.sh_type (mem (constructed m ptr))
            (section_at (constructed m ptr) i))
    with (read32 m (ptr + read32 m (ptr + 32) + 40 * i + 4)).
  change (Shdr.sh_name (mem (constructed m ptr))
            (section_at (constructed m ptr) i))
    with (read32 m (ptr + read32 m (ptr + 32) + 40 * i)).
  destruct (read32 m (ptr + read32 m (ptr + 32) + 40 * i + 4) =? SHT_NULL);
    [reflexivity |].
  cbn [orb].
  destruct (GetSectionDataPtr (constructed m ptr) (read16 m (ptr + 50))
            =? nullptr); reflexivity.
Qed.

Lemma Image_named (m : Memory) (ptr : Z) (name : string) (i : Z) :
  Image.named m ptr name i
  <-> section_matches (constructed m ptr) name i = true.
Proof.
  unfold Image.named, section_matches. rewrite Image_section_name.
  rewrite andb_true_iff, negb_true_iff, Z.eqb_neq, strcmp_eq_cstring.
  reflexivity.
Qed.

Lemma Image_not_named (m : Memory) (ptr : Z) (name : string) (i : Z) :
  ~ Image.named m ptr name i
  <-> section_matches (constructed m ptr) name i = false.
Proof.
  rewrite Image_named. apply not_true_iff_false.
Qed.







(** C7 on the samples: section 3 is the first section of the relocatable
    sample named [.symtab], and its table calls for two reports; the
    stripped sample has no such section. *)
Example construction_reports_symbols_images :
  Image.first_named (Sample.memory_of Sample.buffer Sample.dyn_image)
    Sample.buffer ".symtab" 3
  /\ Image.symbols (Sample.memory_of Sample.buffer Sample.dyn_image)
       Sample.buffer 3
     = [Symbols_Add 4096 (Sample.buffer + 191) 4 2;
        Symbols_Add 8192 (Sample.buffer + 196) 8 1]
  /\ Image.none_named (Sample.memory_of Sample.buffer Sample.stripped_image)
       Sample.buffer ".symtab".
Proof.
  split; [| split].
  - split; [vm_compute; split; [discriminate | reflexivity] |].
    split; [apply Image_named; vm_compute; reflexivity |].
    intros j Hj. apply Image_not_named.
    assert (j = 0 \/ j = 1 \/ j = 2) as [-> | [-> | ->]] by lia;
      vm_compute; reflexivity.
  - vm_compute. reflexivity.
  - intros j Hj. apply Image_not_named.
    assert (E : Image.shnum (Sample.memory_of Sample.buffer
                               Sample.stripped_image) Sample.buffer = 6)
      by (vm_compute; reflexivity).
    rewrite E in Hj.
    assert (j = 0 \/ j = 1 \/ j = 2 \/ j = 3 \/ j = 4 \/ j = 5)
      as [-> | [-> | [-> | [-> | [-> | ->]]]]] by lia;
      vm_compute; reflexivity.
Qed.
